(** * industriage: the evaluation core and the graph orchestration

    A shallow embedding of [src/base/evaluator.py], [src/base/graph_builder.py],
    [src/base/workflow.py] and [src/base/state.py], of the two concrete
    workflows, of the loop and the summaries of [run_workflow.py] and
    [src/display.py], of the prompt methods of [test/agent_tester.py] and of
    the keyword tables of [workflows/primary/transformations.py]; followed by
    the properties the specification states about them, and by further
    properties read off the code.

    Conventions of the embedding.
    - JSON-like Python data ([Dict[str, Any]], lists, numbers, strings, [None])
      is the inductive type [value]; a dict is an association list in insertion
      order with unique keys.
    - Python numbers are exact rationals ([Qc]): [int] keeps its integer, and a
      [float] is idealised as the rational it denotes, so [/], [-] and [abs]
      are exact and there is no NaN, infinity or rounding.  [bool] is a number
      under [==], [isinstance(_, (int, float))] and arithmetic, as in Python.
    - A Python set of hashable JSON scalars is a [gset key].
    - Code that may raise returns a [result]; code that reaches the model
      backend or the clock threads a [World]. *)

From Stdlib Require Import String Ascii QArith Qcanon.
From stdpp Require Import base option list numbers strings countable gmap.

Set Warnings "-register-all,-clear-no-such-hyp,-notation-for-abbreviation".

Local Open Scope string_scope.
Local Open Scope Qc_scope.

(* ===================================================================== *)
(** * Python values and exceptions *)
(* ===================================================================== *)

Module Py.

Inductive value : Type :=
| VNone
| VBool (b : bool)
| VInt (z : Z)
| VFloat (q : Qc)
| VStr (s : string)
| VList (l : list value)
| VDict (d : list (string * value)).

Definition dict : Type := list (string * value).

(** [type(v).__name__] *)
Definition type_name (v : value) : string :=
  match v with
  | VNone => "NoneType"
  | VBool _ => "bool"
  | VInt _ => "int"
  | VFloat _ => "float"
  | VStr _ => "str"
  | VList _ => "list"
  | VDict _ => "dict"
  end.

(** Exceptions, all of them subclasses of [Exception]; [str_exn] is [str(e)]. *)
Inductive exn : Type :=
| KeyError (key : string)
| AttributeError (msg : string)
| TypeError (msg : string)
| ValidationError (msg : string)
| OtherException (msg : string).

(** [repr] of a key made of printable characters without quote or backslash. *)
Definition repr_str (s : string) : string := "'" ++ s ++ "'".

Definition str_exn (e : exn) : string :=
  match e with
  | KeyError k => repr_str k
  | AttributeError m | TypeError m | ValidationError m | OtherException m => m
  end.

Inductive result (A : Type) : Type :=
| Ok (a : A)
| Raise (e : exn).
Arguments Ok {A} a.
Arguments Raise {A} e.

(** Sequencing: an exception raised by [r] propagates. *)
#[global] Instance result_ret : MRet result := fun A a => Ok a.
#[global] Instance result_bind : MBind result := fun A B f r =>
  match r with
  | Ok a => f a
  | Raise e => Raise e
  end.

(** The number a value denotes when [isinstance(v, (int, float))] holds;
    [bool] is a subclass of [int]. *)
Definition as_number (v : value) : option Qc :=
  match v with
  | VBool b => Some (if b then 1 else 0)
  | VInt z => Some (Qc_of_Z z)
  | VFloat q => Some q
  | _ => None
  end.

(** [bool(v)] *)
Definition truthy (v : value) : bool :=
  match v with
  | VNone => false
  | VBool b => b
  | VInt z => negb (Z.eqb z 0)
  | VFloat q => negb (bool_decide (q = 0))
  | VStr s => negb (String.eqb s "")
  | VList l => match l with [] => false | _ => true end
  | VDict d => match d with [] => false | _ => true end
  end.

(** Lookup and assignment in a dict kept as an association list: assignment
    to a present key keeps its position, a new key goes last. *)
Fixpoint lookup_key {V} (k : string) (d : list (string * V)) : option V :=
  match d with
  | [] => None
  | (k', v) :: d' => if String.eqb k k' then Some v else lookup_key k d'
  end.

Fixpoint dict_set {V} (k : string) (v : V) (d : list (string * V))
  : list (string * V) :=
  match d with
  | [] => [(k, v)]
  | (k', v') :: d' =>
      if String.eqb k k' then (k, v) :: d' else (k', v') :: dict_set k v d'
  end.

(** [a == b].  Numbers compare by value across [bool], [int] and [float];
    lists compare element-wise; dicts compare as finite maps. *)
Fixpoint py_eq (a b : value) {struct a} : bool :=
  match a, b with
  | VNone, VNone => true
  | VStr s, VStr t => String.eqb s t
  | VList la, VList lb =>
      (fix list_eq (la lb : list value) {struct la} : bool :=
         match la, lb with
         | [], [] => true
         | x :: la', y :: lb' => py_eq x y && list_eq la' lb'
         | _, _ => false
         end) la lb
  | VDict da, VDict db =>
      Nat.eqb (length da) (length db) &&
      (fix dict_le (da : dict) {struct da} : bool :=
         match da with
         | [] => true
         | (k, v) :: da' =>
             match lookup_key k db with
             | Some w => py_eq v w
             | None => false
             end && dict_le da'
         end) da
  | _, _ =>
      match as_number a, as_number b with
      | Some x, Some y => bool_decide (x = y)
      | _, _ => false
      end
  end.

(** [d.get(k, default)]: an [AttributeError] on anything but a dict. *)
Definition get (d : value) (k : string) (default : value) : result value :=
  match d with
  | VDict kv => Ok (from_option id default (lookup_key k kv))
  | _ => Raise (AttributeError
                  ("'" ++ type_name d ++ "' object has no attribute 'get'"))
  end.

(** [d[k]] for a string [k]. *)
Definition getitem (d : value) (k : string) : result value :=
  match d with
  | VDict kv =>
      match lookup_key k kv with
      | Some v => Ok v
      | None => Raise (KeyError k)
      end
  | VStr _ => Raise (TypeError "string indices must be integers")
  | VList _ => Raise (TypeError "list indices must be integers or slices, not str")
  | _ => Raise (TypeError ("'" ++ type_name d ++ "' object is not subscriptable"))
  end.

(** [s1 in s2] on strings. *)
Fixpoint substring_in (sub s : string) : bool :=
  String.prefix sub s ||
  match s with
  | EmptyString => false
  | String _ s' => substring_in sub s'
  end.

(** [k in d] for a string [k]. *)
Definition contains (d : value) (k : string) : result bool :=
  match d with
  | VDict kv => Ok (bool_decide (is_Some (lookup_key k kv)))
  | VList l => Ok (existsb (py_eq (VStr k)) l)
  | VStr s => Ok (substring_in k s)
  | _ => Raise (TypeError
                  ("argument of type '" ++ type_name d ++ "' is not iterable"))
  end.

(** The elements [for x in v] visits. *)
Definition iter (v : value) : result (list value) :=
  match v with
  | VList l => Ok l
  | VDict kv => Ok (map (fun kv => VStr (fst kv)) kv)
  | VStr s => Ok (map (fun c => VStr (String c EmptyString))
                    (list_ascii_of_string s))
  | _ => Raise (TypeError ("'" ++ type_name v ++ "' object is not iterable"))
  end.

(** [str.lower()] on the ASCII letters. *)
Definition lower_ascii (c : ascii) : ascii :=
  let n := nat_of_ascii c in
  if Nat.leb 65 n && Nat.leb n 90 then ascii_of_nat (n + 32) else c.

Fixpoint lower (s : string) : string :=
  match s with
  | EmptyString => EmptyString
  | String c s' => String (lower_ascii c) (lower s')
  end.

(** Hashable JSON scalars, as members of a set: numbers that are [==] hash
    alike. *)
Inductive key : Type :=
| KNone
| KStr (s : string)
| KNum (q : Qc).

#[global] Instance key_eq_dec : EqDecision key.
Proof. solve_decision. Defined.

#[global] Instance key_countable : Countable key :=
  inj_countable'
    (fun k => match k with
              | KNone => inl ()
              | KStr s => inr (inl s)
              | KNum q => inr (inr q)
              end)
    (fun x => match x with
              | inl _ => KNone
              | inr (inl s) => KStr s
              | inr (inr q) => KNum q
              end)
    (fun k => match k with KNone | KStr _ | KNum _ => eq_refl end).

(** The key [set.add(v)] inserts; lists and dicts are unhashable. *)
Definition hash_key (v : value) : result key :=
  match v with
  | VNone => Ok KNone
  | VStr s => Ok (KStr s)
  | VList _ | VDict _ =>
      Raise (TypeError ("unhashable type: '" ++ type_name v ++ "'"))
  | _ => Ok (KNum (from_option id 0 (as_number v)))
  end.

Definition Qc_of_nat (n : nat) : Qc := Qc_of_Z (Z.of_nat n).

(** Monadic left fold: a [for] loop whose body may raise. *)
Fixpoint foldM {A B} (f : B -> A -> result B) (acc : B) (l : list A)
  : result B :=
  match l with
  | [] => Ok acc
  | x :: l' => acc' ← f acc x; foldM f acc' l'
  end.

End Py.

(* ===================================================================== *)
(** * The metrics ([src/base/evaluator.py]) *)
(* ===================================================================== *)

Import Py.

(** A score map: metric name to score, in insertion order. *)
Definition score_map : Type := list (string * Qc).

(** [BaseMetric]: a name and an [evaluate] method. *)
Record BaseMetric : Type := {
  metric_name : string;
  metric_evaluate : string -> value -> value -> result Qc
}.

Module SchemaValidityMetric.
Section WithSchema.
(** [schema_class.model_validate], from pydantic. *)
Variable model_validate : value -> result value.

Definition name : string := "schema_validity".

Definition evaluate (input_text : string) (actual_output expected_output : value)
  : result Qc :=
  match model_validate actual_output with
  | Ok _ => Ok 1
  | Raise (ValidationError _) => Ok 0
  | Raise e => Raise e
  end.
End WithSchema.
End SchemaValidityMetric.

Module CategoryClassificationMetric.

Definition name : string := "category_classification_accuracy".

(** The three [if out.get(c): cats.add(c)] statements. *)
Definition categories_of (out : value) : result (gset string) :=
  wr ← get out "work_requests" VNone;
  wo ← get out "work_orders" VNone;
  ts ← get out "tasks" VNone;
  let c0 : gset string := ∅ in
  let c1 := if truthy wr then c0 ∪ {["work_requests"]} else c0 in
  let c2 := if truthy wo then c1 ∪ {["work_orders"]} else c1 in
  let c3 := if truthy ts then c2 ∪ {["tasks"]} else c2 in
  Ok c3.

(** The last line: [len(intersection) / len(union) if union else 0.0]. *)
Definition partial_credit (expected_categories actual_categories : gset string)
  : Qc :=
  let intersection := expected_categories ∩ actual_categories in
  let union := expected_categories ∪ actual_categories in
  if bool_decide (union = ∅) then 0
  else Qc_of_nat (size intersection) / Qc_of_nat (size union).

Definition evaluate (input_text : string) (actual_output expected_output : value)
  : result Qc :=
  if negb (truthy expected_output) then Ok 0 else
  expected_categories ← categories_of expected_output;
  actual_categories ← categories_of actual_output;
  if bool_decide (expected_categories = actual_categories) then Ok 1
  else Ok (partial_credit expected_categories actual_categories).

End CategoryClassificationMetric.

Module AssetIdentificationMetric.

Definition ASSET_MAPPINGS : list (string * list string) :=
  [ ("tunnel-001", ["tunnel washer 1"; "tunnel 1"; "tunnel one"]);
    ("tunnel-002", ["tunnel washer 2"; "tunnel 2"; "tunnel two"]);
    ("dryer-012", ["dryer 12"; "clm 12"; "clm dryer 12"]);
    ("dryer-022", ["dryer 22"; "incline dryer 22"]);
    ("ironer-004", ["ironer 4"; "iron 4"; "ironer number 4"]) ].

Definition name : string := "asset_identification_accuracy".

(** The first loop: an id is added as soon as one of its variations occurs
    in the lowercased input. *)
Definition expected_assets_of (input_text : string) : gset key :=
  let input_lower := lower input_text in
  fold_left
    (fun (expected_assets : gset key) (entry : string * list string) =>
       let '(asset_id, variations) := entry in
       if existsb (fun variation => substring_in variation input_lower)
            variations
       then expected_assets ∪ {[KStr asset_id]}
       else expected_assets)
    ASSET_MAPPINGS ∅.

(** The body of the inner loop of the second one. *)
Definition add_item_asset (actual_assets : gset key) (item : value)
  : result (gset key) :=
  asset_id ← get item "asset_id" VNone;
  if truthy asset_id
  then k ← hash_key asset_id; Ok (actual_assets ∪ {[k]})
  else Ok actual_assets.

Definition add_category_assets (actual_output : value)
  (actual_assets : gset key) (category : string) : result (gset key) :=
  items ← get actual_output category (VList []);
  items ← iter items;
  foldM add_item_asset actual_assets items.

Definition actual_assets_of (actual_output : value) : result (gset key) :=
  foldM (add_category_assets actual_output) ∅
    ["work_requests"; "work_orders"; "tasks"].

Definition evaluate (input_text : string) (actual_output expected_output : value)
  : result Qc :=
  let expected_assets := expected_assets_of input_text in
  if bool_decide (expected_assets = ∅) then Ok 1 else
  actual_assets ← actual_assets_of actual_output;
  if bool_decide (expected_assets = actual_assets) then Ok 1 else
  let intersection := expected_assets ∩ actual_assets in
  Ok (Qc_of_nat (size intersection) / Qc_of_nat (size expected_assets)).

End AssetIdentificationMetric.

Module DowntimeExtractionMetric.

Definition name : string := "downtime_extraction_accuracy".

(** [max(0.0, x)]: the second argument wins only when it is greater. *)
Definition max0 (x : Qc) : Qc := if bool_decide (0 < x) then x else 0.

(** [abs(x)] *)
Definition Qcabs (x : Qc) : Qc := if bool_decide (x < 0) then - x else x.

Definition evaluate (input_text : string) (actual_output expected_output : value)
  : result Qc :=
  if negb (truthy expected_output) then Ok 0 else
  expected_downtime ← get expected_output "equipment_downtime" VNone;
  actual_downtime ← get actual_output "equipment_downtime" VNone;
  if py_eq expected_downtime actual_downtime then Ok 1 else
  match as_number expected_downtime, as_number actual_downtime with
  | Some e, Some a =>
      if bool_decide (e = 0) then Ok (if bool_decide (a = 0) then 1 else 0)
      else
        let relative_error := Qcabs (e - a) / e in
        Ok (max0 (1 - relative_error))
  | _, _ => Ok 0
  end.

End DowntimeExtractionMetric.

Module CompletenessMetric.

Definition name : string := "completeness_score".

Definition required_fields : list string := ["title"; "description"; "status"].

(** [if field in item and item[field]: item_score += 1] *)
Definition add_field (item : value) (item_score : Qc) (field : string)
  : result Qc :=
  present ← contains item field;
  if (present : bool)
  then v ← getitem item field;
       Ok (if truthy v then item_score + 1 else item_score)
  else Ok item_score.

(** The body of the loop over [enumerate(items)], on [(score, total_items)]. *)
Definition add_item (acc : Qc * nat) (item : value) : result (Qc * nat) :=
  let '(score, total_items) := acc in
  let total_items := S total_items in
  item_score ← foldM (add_field item) 0 required_fields;
  let item_score := item_score / Qc_of_nat (length required_fields) in
  Ok (score + item_score, total_items).

Definition add_category (actual_output expected_output : value)
  (acc : Qc * nat) (category : string) : result (Qc * nat) :=
  items ← get actual_output category (VList []);
  expected_items ← get expected_output category (VList []);
  items ← iter items;
  foldM add_item acc items.

Definition evaluate (input_text : string) (actual_output expected_output : value)
  : result Qc :=
  if negb (truthy expected_output) then Ok 0 else
  '(score, total_items) ←
     foldM (add_category actual_output expected_output) (0, O)
       ["work_requests"; "work_orders"; "tasks"];
  Ok (if Nat.ltb 0 total_items then score / Qc_of_nat total_items else 0).

End CompletenessMetric.

(** The metrics as [BaseMetric] objects. *)
Definition schema_validity_metric (model_validate : value -> result value)
  : BaseMetric :=
  {| metric_name := SchemaValidityMetric.name;
     metric_evaluate := SchemaValidityMetric.evaluate model_validate |}.

Definition category_classification_metric : BaseMetric :=
  {| metric_name := CategoryClassificationMetric.name;
     metric_evaluate := CategoryClassificationMetric.evaluate |}.

Definition asset_identification_metric : BaseMetric :=
  {| metric_name := AssetIdentificationMetric.name;
     metric_evaluate := AssetIdentificationMetric.evaluate |}.

Definition downtime_extraction_metric : BaseMetric :=
  {| metric_name := DowntimeExtractionMetric.name;
     metric_evaluate := DowntimeExtractionMetric.evaluate |}.

Definition completeness_metric : BaseMetric :=
  {| metric_name := CompletenessMetric.name;
     metric_evaluate := CompletenessMetric.evaluate |}.

Module EvaluationFramework.

(** [self.metrics]: metric name to metric, in insertion order. *)
Definition t : Type := list (string * BaseMetric).

Definition init : t := [].

Definition add_metric (self : t) (metric : BaseMetric) : t :=
  dict_set (metric_name metric) metric self.

(** One turn of the loop: the [try] records the score, the [except] a zero. *)
Definition evaluate_step (input_text : string)
  (actual_output expected_output : value)
  (scores : score_map) (entry : string * BaseMetric) : score_map :=
  let '(name, metric) := entry in
  match metric_evaluate metric input_text actual_output expected_output with
  | Ok score => dict_set name score scores
  | Raise e => dict_set name 0 scores
  end.

Definition evaluate (self : t) (input_text : string)
  (actual_output expected_output : value) : score_map :=
  fold_left (evaluate_step input_text actual_output expected_output) self [].

Definition get_aggregate_score (scores : score_map) : Qc :=
  match scores with
  | [] => 0
  | _ => fold_right Qcplus 0 (map snd scores) / Qc_of_nat (length scores)
  end.

End EvaluationFramework.

(* ===================================================================== *)
(** * Run state and step graph ([src/base/state.py], [src/base/graph_builder.py]) *)
(* ===================================================================== *)

(** [BaseState]; [output_data] is [VNone] for [None]. *)
Record BaseState : Type := {
  input_data : string;
  output_data : value;
  errors : list string;
  metadata : dict;
  step_results : dict
}.

(** [EvaluationResult], with the defaults of its fields. *)
Record EvaluationResult : Type := {
  input_text : string;
  expected_output : value;
  actual_output : value;
  metrics : score_map;
  result_errors : list string;
  execution_time : Qc;
  success : bool
}.

(** Code that calls the model backend or reads the clock: it may raise, and
    it moves the world on either way. *)
Definition M (World A : Type) : Type := World -> result A * World.

Definition mret {World A} (a : A) : M World A := fun w => (Ok a, w).

Definition mbind {World A B} (m : M World A) (f : A -> M World B) : M World B :=
  fun w =>
    match m w with
    | (Ok a, w') => f a w'
    | (Raise e, w') => (Raise e, w')
    end.

(** [graph.json]: the declared step names and the edge list. *)
Record GraphConfig : Type := {
  cfg_agents : list string;
  cfg_edges : list (string * string)
}.

(** The node functions [build_graph] hands to [add_node], as data. *)
Inductive node : Type :=
| AgentNode (agent_name : string)
| ValidateOutputNode.

(** Modelled from the spec: the executable graph belongs to the LangGraph
    library ([StateGraph.compile], [invoke]), which is not part of the
    sources.  Following section 4.1, it is the steps in their single
    deterministic traversal order from the entry point to the exit. *)
Definition CompiledGraph : Type := list node.

Module GraphBuilder.
Section WithWorkflow.
Context {World : Type}.

(** The workflow: [workflow.agents], the chain [prompt | llm |
    JsonOutputParser()] built and invoked on an input, and
    [get_output_schema().model_validate(_).model_dump()]. *)
Variable agents : list (string * value).
Variable chain_invoke : value -> string -> M World value.
Variable model_validate : value -> result value.

(** The LangGraph builder API, taken as given. *)
Variable StateGraph : Type.
Variable new_StateGraph : StateGraph.
Variable add_node : StateGraph -> string -> node -> result StateGraph.
Variable set_entry_point : StateGraph -> string -> result StateGraph.
Variable add_edge : StateGraph -> string -> string -> result StateGraph.
Variable END : string.
Variable compile : StateGraph -> result CompiledGraph.

(** [self]: the configuration and the cached compiled graph. *)
Record t : Type := {
  graph : option CompiledGraph;
  graph_config : GraphConfig
}.

(** The [try] block of [agent_node]. *)
Definition agent_call (agent_name : string) (state : BaseState)
  : M World value :=
  fun w =>
    match lookup_key agent_name agents with
    | None => (Raise (KeyError agent_name), w)
    | Some agent =>
        match config ← getitem agent "config"; getitem config "prompt" with
        | Raise e => (Raise e, w)
        | Ok prompt => chain_invoke prompt (input_data state) w
        end
    end.

Definition agent_node (agent_name : string) (state : BaseState)
  : M World BaseState :=
  fun w =>
    match agent_call agent_name state w with
    | (Ok result, w') =>
        (Ok {| input_data := input_data state;
               output_data := result;
               errors := errors state;
               metadata := metadata state;
               step_results := dict_set agent_name result (step_results state) |},
         w')
    | (Raise e, w') =>
        let error_msg := "Error in " ++ agent_name ++ ": " ++ str_exn e in
        (Ok {| input_data := input_data state;
               output_data := VNone;
               errors := errors state ++ [error_msg];
               metadata := metadata state;
               step_results := step_results state |},
         w')
    end.

Definition set_step_result (state : BaseState) (k : string) (v : value)
  (errs : list string) : BaseState :=
  {| input_data := input_data state;
     output_data := output_data state;
     errors := errs;
     metadata := metadata state;
     step_results := dict_set k v (step_results state) |}.

Definition _validate_output_node (state : BaseState) : M World BaseState :=
  fun w =>
    if truthy (output_data state) then
      match model_validate (output_data state) with
      | Ok validated =>
          (Ok (set_step_result state "validate_output"
                 (VDict [("valid", VBool true); ("validated_data", validated)])
                 (errors state)), w)
      | Raise e =>
          let error_msg := "Validation error: " ++ str_exn e in
          (Ok (set_step_result state "validate_output"
                 (VDict [("valid", VBool false); ("error", VStr error_msg)])
                 (errors state ++ [error_msg])), w)
      end
    else
      (Ok (set_step_result state "validate_output"
             (VDict [("valid", VBool false);
                     ("error", VStr "No output data to validate")])
             (errors state)), w).

Definition run_node (n : node) : BaseState -> M World BaseState :=
  match n with
  | AgentNode agent_name => agent_node agent_name
  | ValidateOutputNode => _validate_output_node
  end.

(** Modelled from the spec: [invoke] of the compiled graph (LangGraph, not
    in the sources) runs the steps in order, threading the run state; an
    exception escaping a node function would end the run. *)
Fixpoint invoke (g : CompiledGraph) (state : BaseState) : M World BaseState :=
  match g with
  | [] => mret state
  | n :: g' => mbind (run_node n state) (invoke g')
  end.

(** The loop over [graph_config["edges"]]. *)
Definition add_config_edge (graph : StateGraph) (edge : string * string)
  : result StateGraph :=
  let '(from_node, to_node) := edge in
  if String.eqb from_node "START" then set_entry_point graph to_node
  else if String.eqb to_node "END" then
    graph ← add_edge graph from_node "validate_output";
    add_edge graph "validate_output" END
  else add_edge graph from_node to_node.

Definition build_graph (self : t) : result CompiledGraph :=
  let graph := new_StateGraph in
  graph ← foldM (fun graph agent_name =>
                   add_node graph agent_name (AgentNode agent_name))
            graph (cfg_agents (graph_config self));
  graph ← add_node graph "validate_output" ValidateOutputNode;
  graph ← foldM add_config_edge graph (cfg_edges (graph_config self));
  compile graph.

Definition initial_state (input_text : string) : BaseState :=
  {| input_data := input_text;
     output_data := VNone;
     errors := [];
     metadata := [];
     step_results := [] |}.

(** [execute] returns the final state, or raises; either way [self] is
    left with the graph it has compiled, if any. *)
Definition execute (self : t) (input_text : string)
  : World -> (result BaseState * t) * World :=
  fun w =>
    let built :=
      match graph self with
      | Some g => Ok g
      | None => build_graph self
      end in
    match built with
    | Raise e => ((Raise e, self), w)
    | Ok g =>
        let self' := {| graph := Some g; graph_config := graph_config self |} in
        let '(r, w') := invoke g (initial_state input_text) w in
        ((r, self'), w')
    end.

End WithWorkflow.
End GraphBuilder.

(* ===================================================================== *)
(** * The evaluation session ([src/base/workflow.py]) *)
(* ===================================================================== *)

Module BaseWorkflow.
Section WithMethods.
Context {World : Type}.

(** The abstract methods, and [time.time()]. *)
Variable process_input : string -> M World value.
Variable evaluate_output : string -> value -> value -> M World score_map.
Variable time : World -> Qc * World.

(** [EvaluationResult(input_text=...)] *)
Definition new_result (input : string) : EvaluationResult :=
  {| input_text := input;
     expected_output := VNone;
     actual_output := VNone;
     metrics := [];
     result_errors := [];
     execution_time := 0;
     success := false |}.

Definition set_actual_output (r : EvaluationResult) (v : value) :=
  {| input_text := input_text r; expected_output := expected_output r;
     actual_output := v; metrics := metrics r;
     result_errors := result_errors r;
     execution_time := execution_time r; success := success r |}.

Definition set_expected_output (r : EvaluationResult) (v : value) :=
  {| input_text := input_text r; expected_output := v;
     actual_output := actual_output r; metrics := metrics r;
     result_errors := result_errors r;
     execution_time := execution_time r; success := success r |}.

(** [result.metrics = metrics; result.success = True] *)
Definition set_metrics (r : EvaluationResult) (m : score_map) :=
  {| input_text := input_text r; expected_output := expected_output r;
     actual_output := actual_output r; metrics := m;
     result_errors := result_errors r;
     execution_time := execution_time r; success := true |}.

(** [result.errors.append(str(e)); result.success = False] *)
Definition set_failed (r : EvaluationResult) (e : exn) :=
  {| input_text := input_text r; expected_output := expected_output r;
     actual_output := actual_output r; metrics := metrics r;
     result_errors := result_errors r ++ [str_exn e];
     execution_time := execution_time r; success := false |}.

Definition set_execution_time (r : EvaluationResult) (t : Qc) :=
  {| input_text := input_text r; expected_output := expected_output r;
     actual_output := actual_output r; metrics := metrics r;
     result_errors := result_errors r;
     execution_time := t; success := success r |}.

(** The [try] / [except Exception] of the loop body: it always falls
    through to the timing lines with some result. *)
Definition try_item (item : value) (input : string) (result : EvaluationResult)
  : World -> EvaluationResult * World :=
  fun w =>
    match process_input input w with
    | (Raise e, w) => (set_failed result e, w)
    | (Ok actual, w) =>
        let result := set_actual_output result actual in
        match get item "expected_output" VNone with
        | Raise e => (set_failed result e, w)
        | Ok expected =>
            let result := set_expected_output result expected in
            match evaluate_output input actual expected w with
            | (Raise e, w) => (set_failed result e, w)
            | (Ok metrics, w) => (set_metrics result metrics, w)
            end
        end
    end.

(** The loop body.  [item["input"]] and the construction of the result
    stand before the [try]: what they raise leaves the loop. *)
Definition evaluate_item (item : value) : M World EvaluationResult :=
  fun w =>
    let '(start_time, w) := time w in
    match getitem item "input" with
    | Raise e => (Raise e, w)
    | Ok (VStr input) =>
        let '(result, w) := try_item item input (new_result input) w in
        let '(end_time, w) := time w in
        (Ok (set_execution_time result (end_time - start_time)), w)
    | Ok _ =>
        (Raise (ValidationError "input_text: Input should be a valid string"), w)
    end.

Fixpoint run_loop (dataset : list value) (results : list EvaluationResult)
  : M World (list EvaluationResult) :=
  match dataset with
  | [] => mret results
  | item :: dataset' =>
      mbind (evaluate_item item)
            (fun result => run_loop dataset' (results ++ [result]))
  end.

Definition run_evaluation (dataset : list value)
  : M World (list EvaluationResult) :=
  run_loop dataset [].

End WithMethods.
End BaseWorkflow.

(* ===================================================================== *)
(** * The concrete workflows ([workflows/primary/workflow.py],
      [workflows/secondary/workflow.py]) *)
(* ===================================================================== *)

(** A workflow object keeps its graph builder, which caches the compiled
    graph: the methods thread the builder together with the world. *)
Definition lift_time {World} (time : World -> Qc * World)
  : GraphBuilder.t * World -> Qc * (GraphBuilder.t * World) :=
  fun '(graph_builder, w) =>
    let '(t, w) := time w in (t, (graph_builder, w)).

Module PrimaryWorkflow.
Section WithWorkflow.
Context {World : Type}.
Variable agents : list (string * value).
Variable chain_invoke : value -> string -> M World value.
Variable model_validate : value -> result value.
Variable StateGraph : Type.
Variable new_StateGraph : StateGraph.
Variable add_node : StateGraph -> string -> node -> result StateGraph.
Variable set_entry_point : StateGraph -> string -> result StateGraph.
Variable add_edge : StateGraph -> string -> string -> result StateGraph.
Variable END : string.
Variable compile : StateGraph -> result CompiledGraph.
Variable time : World -> Qc * World.

(** The structure returned when processing left no output. *)
Definition empty_output : value :=
  VDict [("work_requests", VList []); ("work_orders", VList []);
         ("tasks", VList [])].

Definition process_input (input_text : string)
  : M (GraphBuilder.t * World) value :=
  fun '(graph_builder, w) =>
    let '((r, graph_builder), w) :=
      GraphBuilder.execute agents chain_invoke model_validate StateGraph
        new_StateGraph add_node set_entry_point add_edge END compile
        graph_builder input_text w in
    match r with
    | Raise e => (Raise e, (graph_builder, w))
    | Ok result =>
        (Ok (if truthy (output_data result) then output_data result
             else empty_output),
         (graph_builder, w))
    end.

Definition _setup_evaluation : EvaluationFramework.t :=
  let framework := EvaluationFramework.init in
  let framework :=
    EvaluationFramework.add_metric framework
      (schema_validity_metric model_validate) in
  let framework :=
    EvaluationFramework.add_metric framework category_classification_metric in
  EvaluationFramework.add_metric framework asset_identification_metric.

Definition evaluate_output (input_text : string)
  (actual_output expected_output : value)
  : M (GraphBuilder.t * World) score_map :=
  fun s =>
    (Ok (EvaluationFramework.evaluate _setup_evaluation input_text
           actual_output expected_output), s).

(** [run_evaluation], inherited from [BaseWorkflow]. *)
Definition run_evaluation (dataset : list value)
  : M (GraphBuilder.t * World) (list EvaluationResult) :=
  BaseWorkflow.run_evaluation process_input evaluate_output (lift_time time)
    dataset.

End WithWorkflow.
End PrimaryWorkflow.

Module SecondaryWorkflow.
Section WithWorkflow.
Context {World : Type}.
Variable agents : list (string * value).
Variable chain_invoke : value -> string -> M World value.
Variable model_validate : value -> result value.
Variable StateGraph : Type.
Variable new_StateGraph : StateGraph.
Variable add_node : StateGraph -> string -> node -> result StateGraph.
Variable set_entry_point : StateGraph -> string -> result StateGraph.
Variable add_edge : StateGraph -> string -> string -> result StateGraph.
Variable END : string.
Variable compile : StateGraph -> result CompiledGraph.
Variable time : World -> Qc * World.

Definition empty_output : value :=
  VDict [("work_summary", VStr "");
         ("equipment_downtime", VNone);
         ("work_duration", VNone);
         ("parts_used", VList []);
         ("issues_found", VList []);
         ("follow_up_required", VBool false);
         ("completion_status", VStr "unknown")].

Definition process_input (input_text : string)
  : M (GraphBuilder.t * World) value :=
  fun '(graph_builder, w) =>
    let '((r, graph_builder), w) :=
      GraphBuilder.execute agents chain_invoke model_validate StateGraph
        new_StateGraph add_node set_entry_point add_edge END compile
        graph_builder input_text w in
    match r with
    | Raise e => (Raise e, (graph_builder, w))
    | Ok result =>
        (Ok (if truthy (output_data result) then output_data result
             else empty_output),
         (graph_builder, w))
    end.

Definition _setup_evaluation : EvaluationFramework.t :=
  let framework := EvaluationFramework.init in
  let framework :=
    EvaluationFramework.add_metric framework
      (schema_validity_metric model_validate) in
  let framework :=
    EvaluationFramework.add_metric framework downtime_extraction_metric in
  EvaluationFramework.add_metric framework completeness_metric.

Definition evaluate_output (input_text : string)
  (actual_output expected_output : value)
  : M (GraphBuilder.t * World) score_map :=
  fun s =>
    (Ok (EvaluationFramework.evaluate _setup_evaluation input_text
           actual_output expected_output), s).

(** [run_evaluation], inherited from [BaseWorkflow]. *)
Definition run_evaluation (dataset : list value)
  : M (GraphBuilder.t * World) (list EvaluationResult) :=
  BaseWorkflow.run_evaluation process_input evaluate_output (lift_time time)
    dataset.

End WithWorkflow.
End SecondaryWorkflow.

(* ===================================================================== *)
(** * The runner and the reports ([run_workflow.py], [src/display.py]) *)
(* ===================================================================== *)

Module RunWorkflow.

(** [if max_items: dataset_items = dataset_items[:max_items]]; a negative
    bound of a slice counts from the end. *)
Definition limit_items {A} (max_items : option Z) (dataset_items : list A)
  : list A :=
  match max_items with
  | None => dataset_items
  | Some n =>
      if Z.eqb n 0 then dataset_items
      else if Z.ltb 0 n then take (Z.to_nat n) dataset_items
      else take (length dataset_items - Z.to_nat (- n)) dataset_items
  end.

Section WithWorkflow.
Context {World : Type}.
Variable process_input : string -> M World value.
Variable evaluate_output : string -> value -> value -> M World score_map.
Variable time : World -> Qc * World.

(** The loop of [run]: one call of [run_evaluation] per item, keeping its
    first result. *)
Fixpoint evaluate_items (dataset_items : list value)
  (results : list EvaluationResult) : M World (list EvaluationResult) :=
  match dataset_items with
  | [] => mret results
  | item :: dataset_items' =>
      mbind (BaseWorkflow.run_evaluation process_input evaluate_output time
               [item])
            (fun item_results =>
               match item_results with
               | result :: _ => evaluate_items dataset_items' (results ++ [result])
               | [] => fun w => (Raise (OtherException "list index out of range"), w)
               end)
  end.

End WithWorkflow.

Definition successful (results : list EvaluationResult) : nat :=
  length (filter (fun r => success r = true) results).

Definition total_time (results : list EvaluationResult) : Qc :=
  fold_left Qcplus (map execution_time results) 0.

(** The final summary of [run]: the success rate and the average time, with
    nothing to guard the division. *)
Definition summary (results : list EvaluationResult) : result (Qc * Qc) :=
  match results with
  | [] => Raise (OtherException "division by zero")
  | _ =>
      Ok (Qc_of_nat (successful results) / Qc_of_nat (length results),
          total_time results / Qc_of_nat (length results))
  end.

End RunWorkflow.

Module ResultsPresenter.

(** The "summary" of [save_json_results]: total, successful, success rate and
    average execution time. *)
Definition json_summary (results : list EvaluationResult)
  : nat * nat * Qc * Qc :=
  (length results,
   RunWorkflow.successful results,
   match results with
   | [] => 0
   | _ => Qc_of_nat (RunWorkflow.successful results)
          / Qc_of_nat (length results)
   end,
   match results with
   | [] => 0
   | _ => RunWorkflow.total_time results / Qc_of_nat (length results)
   end).

End ResultsPresenter.

(* ===================================================================== *)
(** * The manual tester ([test/agent_tester.py]) *)
(* ===================================================================== *)

(** [d[k] = v] for a string [k]. *)
Definition setitem (d : value) (k : string) (v : value) : result value :=
  match d with
  | VDict kv => Ok (VDict (dict_set k v kv))
  | VList _ => Raise (TypeError "list indices must be integers or slices, not str")
  | _ => Raise (TypeError
                  ("'" ++ type_name d ++ "' object does not support item assignment"))
  end.

Module AgentTester.

(** [self.workflows]: workflow name to the workflow, or to [None] when its
    setup failed.  Of a workflow the prompt methods use its [agents] only. *)
Definition workflows_t : Type := list (string * option (list (string * value))).

(** Every exception is swallowed into the empty prompt. *)
Definition get_agent_prompt (workflows : workflows_t) (workflow_name : string)
  : value :=
  match lookup_key workflow_name workflows with
  | Some (Some ((agent_name, agent) :: _)) =>
      match get agent "prompt" (VStr "") with
      | Ok prompt => prompt
      | Raise _ => VStr ""
      end
  | _ => VStr ""
  end.

(** The answer, and [self.workflows] as the call leaves it. *)
Definition update_agent_prompt (workflows : workflows_t)
  (workflow_name new_prompt : string) : bool * workflows_t :=
  match lookup_key workflow_name workflows with
  | Some (Some ((agent_name, agent) :: agents)) =>
      match setitem agent "prompt" (VStr new_prompt) with
      | Ok agent' =>
          (true,
           dict_set workflow_name (Some ((agent_name, agent') :: agents))
             workflows)
      | Raise _ => (false, workflows)
      end
  | _ => (false, workflows)
  end.

(** The "success" entry of the result of [test_agent]:
    [bool(result and result != {})]. *)
Definition success_flag (result : value) : bool :=
  if truthy result then negb (py_eq result (VDict [])) else false.

End AgentTester.

(* ===================================================================== *)
(** * The keyword tables ([workflows/primary/transformations.py]) *)
(* ===================================================================== *)

(** The double loop of the classifiers: the first key of the table one of
    whose phrases occurs in the lowercased text. *)
Fixpoint first_match (table : list (string * list string)) (text_lower : string)
  : option string :=
  match table with
  | [] => None
  | (id, phrases) :: table' =>
      if existsb (fun phrase => substring_in phrase text_lower) phrases
      then Some id
      else first_match table' text_lower
  end.

Module AssetMapper.

Definition ASSET_MAPPINGS : list (string * list string) :=
  [ ("tunnel-001", ["tunnel washer 1"; "tunnel 1"; "tunnel one"; "tw1"; "tw 1"]);
    ("tunnel-002", ["tunnel washer 2"; "tunnel 2"; "tunnel two"; "tw2"; "tw 2"]);
    ("dryer-012", ["dryer 12"; "clm 12"; "clm dryer 12"; "d12"; "dryer twelve"]);
    ("dryer-022", ["dryer 22"; "incline dryer 22"; "d22"; "dryer twenty two"]);
    ("ironer-004", ["ironer 4"; "iron 4"; "ironer number 4"; "i4"; "ironer four"]) ].

Definition extract_asset_id (text : string) : option string :=
  first_match ASSET_MAPPINGS (lower text).

End AssetMapper.

Module WorkTypeClassifier.

Definition WORK_TYPE_MAPPINGS : list (string * list string) :=
  [ ("emergency-001", ["emergency"; "critical"; "safety hazard";
                       "production stopped"; "leak"; "failure"; "down";
                       "broken"; "not working"]);
    ("urgent-002", ["urgent"; "asap"; "as soon as possible"; "high priority";
                    "priority"; "soon"; "quickly"]);
    ("routine-003", ["routine"; "scheduled"; "preventive"; "pm"; "regular";
                     "maintenance"; "inspection"]);
    ("low-004", ["when possible"; "low priority"; "whenever"; "non-urgent";
                 "eventually"; "sometime"]) ].

Definition classify_work_type (text : string) : option string :=
  first_match WORK_TYPE_MAPPINGS (lower text).

End WorkTypeClassifier.

Module CategoryClassifier.

(** [any(phrase in text_lower for phrase in phrases)] *)
Definition any_in (phrases : list string) (text_lower : string) : bool :=
  existsb (fun phrase => substring_in phrase text_lower) phrases.

Definition classify_category (text : string) : string :=
  let text_lower := lower text in
  if any_in ["work request"; "create a work request"; "put in a work request"]
       text_lower
  then "work_request"
  else if any_in ["work order"; "create a work order"; "generate a work order"]
            text_lower
  then "work_order"
  else if any_in ["inspection"; "check"; "verify"; "inspect"] text_lower
  then "inspection_task"
  else if any_in ["order"; "call"; "coordinate"; "administrative"; "admin"]
            text_lower
  then "general_task"
  else
    match WorkTypeClassifier.classify_work_type text with
    | Some work_type =>
        if String.eqb work_type "emergency-001"
           || String.eqb work_type "urgent-002"
        then "work_order" else "work_request"
    | None => "work_request"
    end.

End CategoryClassifier.

(* ===================================================================== *)
(** * Vocabulary of the statements, and sample data *)
(* ===================================================================== *)

(** ** Metrics *)

(** An output (or expected output) holding just a downtime. *)
Definition downtime (v : value) : value := VDict [("equipment_downtime", v)].

(** A non-empty category, and an output whose only item has no asset id. *)
Definition some_item : value := VList [VDict [("title", VStr "fix pump")]].

Definition untagged_task : value :=
  VDict [("tasks", VList [VDict [("title", VStr "check seals")]])].

(** An output whose only item is tagged with the dryer. *)
Definition tagged_task : value :=
  VDict [("tasks", VList [VDict [("asset_id", VStr "dryer-012")]])].

(** [k] is the truthy [asset_id] of [item]. *)
Definition asset_of_item (item : value) (k : key) : Prop :=
  exists v, get item "asset_id" VNone = Ok v /\ truthy v = true /\
            hash_key v = Ok k.

(** [k] is the asset id of some item of the category in the output. *)
Definition asset_in_category (actual_output : value) (category : string)
  (k : key) : Prop :=
  exists items_v items item,
    get actual_output category (VList []) = Ok items_v /\
    iter items_v = Ok items /\ item ∈ items /\ asset_of_item item k.

(** What the framework records for one metric. *)
Definition recorded_score (metric : BaseMetric) (input : string)
  (actual expected : value) : Qc :=
  match metric_evaluate metric input actual expected with
  | Ok score => score
  | Raise _ => 0
  end.

(** The primary metric set without the schema metric. *)
Definition category_and_asset : EvaluationFramework.t :=
  EvaluationFramework.add_metric
    (EvaluationFramework.add_metric EvaluationFramework.init
       category_classification_metric)
    asset_identification_metric.

(** ** Step graph *)

Section GraphVocabulary.
Context {World : Type}.
Variable chain_invoke : value -> string -> M World value.

(** A deterministic backend: its answer depends on the instructions and the
    input only, not on what it has been asked before. *)
Definition deterministic_backend : Prop :=
  forall prompt input w1 w2,
    fst (chain_invoke prompt input w1) = fst (chain_invoke prompt input w2).

End GraphVocabulary.

(** One declared step; a backend that always fails; a schema that accepts
    every output. *)
Definition extract_agents : list (string * value) :=
  [("extract", VDict [("name", VStr "extract");
                      ("config", VDict [("prompt", VStr "Extract the work items.")])])].

Definition failing_backend : value -> string -> M unit value :=
  fun _ _ w => (Raise (OtherException "model timeout"), w).

Definition accept_all : value -> result value := fun v => Ok v.

(** A backend that counts its calls and answers from the input alone. *)
Definition counting_backend : value -> string -> M nat value :=
  fun prompt input calls =>
    (Ok (VDict [("work_requests", VList []); ("summary", VStr input)]),
     S calls).

(** A stand-in for the builder API: it keeps the nodes in the order they
    were added and accepts every edge. *)
Definition listing_add_node (g : list node) (name : string) (n : node)
  : result (list node) := Ok (g ++ [n])%list.
Definition listing_add_edge (g : list node) (from_node to_node : string)
  : result (list node) := Ok g.
Definition listing_set_entry_point (g : list node) (to_node : string)
  : result (list node) := Ok g.

Definition extract_builder : GraphBuilder.t :=
  {| GraphBuilder.graph := None;
     GraphBuilder.graph_config :=
       {| cfg_agents := ["extract"];
          cfg_edges := [("START", "extract"); ("extract", "END")] |} |}.

(** ** Evaluation session *)

(** A dataset item as the data format has it: a mapping with a string
    under "input". *)
Definition well_formed_item (item : value) : Prop :=
  exists input, getitem item "input" = Ok (VStr input).

Section SessionVocabulary.
Context {World : Type}.
Variable process_input : string -> M World value.
Variable evaluate_output : string -> value -> value -> M World score_map.
Variable time : World -> Qc * World.

(** The outcome of processing and scoring [input], started in world [w0]:
    the fields of the result and the world when the attempt ends. *)
Definition attempt_outcome (item : value) (input : string) (w0 : World)
  (r : EvaluationResult) (w1 : World) : Prop :=
  match process_input input w0 with
  | (Raise e, wp) =>
      w1 = wp /\ success r = false /\ result_errors r = [str_exn e] /\
      metrics r = [] /\ actual_output r = VNone
  | (Ok actual, wp) =>
      actual_output r = actual /\
      exists expected,
        get item "expected_output" VNone = Ok expected /\
        expected_output r = expected /\
        match evaluate_output input actual expected wp with
        | (Raise e, we) =>
            w1 = we /\ success r = false /\
            result_errors r = [str_exn e] /\ metrics r = []
        | (Ok scores, we) =>
            w1 = we /\ success r = true /\
            result_errors r = [] /\ metrics r = scores
        end
  end.

(** The result [r] of one item, evaluated from world [w] to world [w']. *)
Definition item_outcome (item : value) (w : World) (r : EvaluationResult)
  (w' : World) : Prop :=
  exists input w1,
    getitem item "input" = Ok (VStr input) /\
    input_text r = input /\
    attempt_outcome item input (snd (time w)) r w1 /\
    execution_time r = fst (time w1) - fst (time w) /\
    w' = snd (time w1).

(** The results of a dataset, item by item and in order. *)
Inductive run_outcome : list value -> World -> list EvaluationResult ->
                        World -> Prop :=
| run_outcome_nil w : run_outcome [] w [] w
| run_outcome_cons item dataset w r w1 results w2 :
    item_outcome item w r w1 ->
    run_outcome dataset w1 results w2 ->
    run_outcome (item :: dataset) w (r :: results) w2.

End SessionVocabulary.

(** A session on a clock that ticks at every reading: processing fails on
    the input "bad", scoring fails on an expected output that is a string;
    and a dataset that meets both failures before an item that goes well. *)
Definition ticking_clock : nat -> Qc * nat := fun n => (Qc_of_nat n, S n).

Definition fragile_process_input : string -> M nat value :=
  fun input n =>
    if String.eqb input "bad"
    then (Raise (OtherException "recursion limit reached"), S n)
    else (Ok (VDict [("work_requests", VList []); ("work_orders", VList []);
                     ("tasks", VList [])]), S n).

Definition fragile_evaluate_output
  : string -> value -> value -> M nat score_map :=
  fun input actual expected n =>
    match expected with
    | VStr _ => (Raise (AttributeError "'str' object has no attribute 'get'"), n)
    | _ => (Ok (EvaluationFramework.evaluate category_and_asset
                  input actual expected), n)
    end.

Definition three_items : list value :=
  [ VDict [("input", VStr "bad")];
    VDict [("input", VStr "dryer 12 is noisy"); ("expected_output", VStr "n/a")];
    VDict [("input", VStr "all fine")] ].

(** A dataset whose second item has no "input". *)
Definition missing_input_items : list value :=
  [ VDict [("input", VStr "all fine")];
    VDict [("expected_output", VDict [("tasks", VList [])])];
    VDict [("input", VStr "all fine")] ].

(** ** Graph compilation *)

(** The value of [END] in langgraph. *)
Definition langgraph_END : string := "__end__".

(** A call of the builder API. *)
Inductive call : Type :=
| AddNode (name : string) (n : node)
| SetEntryPoint (to_node : string)
| AddEdge (from_node to_node : string).

(** The calls [build_graph] issues for one configured edge. *)
Definition edge_calls (END : string) (edge : string * string) : list call :=
  let '(from_node, to_node) := edge in
  if String.eqb from_node "START" then [SetEntryPoint to_node]
  else if String.eqb to_node "END"
       then [AddEdge from_node "validate_output"; AddEdge "validate_output" END]
       else [AddEdge from_node to_node].

(** All the calls before [compile], in order. *)
Definition calls_of (END : string) (cfg : GraphConfig) : list call :=
  (map (fun agent_name => AddNode agent_name (AgentNode agent_name))
       (cfg_agents cfg)
   ++ [AddNode "validate_output" ValidateOutputNode]
   ++ flat_map (edge_calls END) (cfg_edges cfg))%list.

(** The three conditions of the specification, on the configured edges. *)
Definition lacks_start_edge (cfg : GraphConfig) : Prop :=
  forall edge, edge ∈ cfg_edges cfg -> fst edge <> "START".

Definition references_undeclared_step (cfg : GraphConfig) : Prop :=
  exists edge, edge ∈ cfg_edges cfg /\
    ((fst edge <> "START" /\ fst edge ∉ cfg_agents cfg) \/
     (snd edge <> "END" /\ snd edge ∉ cfg_agents cfg)).

Definition contains_cycle (cfg : GraphConfig) : Prop :=
  exists step, tc (fun x y => (x, y) ∈ cfg_edges cfg) step step.

Definition spec_compile_fails (cfg : GraphConfig) : Prop :=
  lacks_start_edge cfg \/ references_undeclared_step cfg \/ contains_cycle cfg.

(** The call fails. *)
Definition raises {A} (r : result A) : Prop := exists e, r = Raise e.

Section BuilderCalls.
Variable StateGraph : Type.
Variable add_node : StateGraph -> string -> node -> result StateGraph.
Variable set_entry_point : StateGraph -> string -> result StateGraph.
Variable add_edge : StateGraph -> string -> string -> result StateGraph.

(** Performing one recorded call on the builder. *)
Definition run_call (graph : StateGraph) (c : call) : result StateGraph :=
  match c with
  | AddNode name n => add_node graph name n
  | SetEntryPoint to_node => set_entry_point graph to_node
  | AddEdge from_node to_node => add_edge graph from_node to_node
  end.

End BuilderCalls.

(** A builder whose [compile] rejects every graph. *)
Definition rejecting_compile : list node -> result CompiledGraph :=
  fun _ => Raise (OtherException "Graph must have an entrypoint").

(** A configuration without a START edge. *)
Definition no_start_builder : GraphBuilder.t :=
  {| GraphBuilder.graph := None;
     GraphBuilder.graph_config :=
       {| cfg_agents := ["extract"]; cfg_edges := [("extract", "END")] |} |}.

(** The usual one-step graph, and the same graph with its route through the
    validation node written out. *)
Definition routed_by_end : GraphConfig :=
  {| cfg_agents := ["extract"];
     cfg_edges := [("START", "extract"); ("extract", "END")] |}.

Definition routed_by_hand : GraphConfig :=
  {| cfg_agents := ["extract"];
     cfg_edges := [("START", "extract"); ("extract", "validate_output");
                   ("validate_output", langgraph_END)] |}.

(** The edges of [routed_by_end] go up in this rank. *)
Definition edge_rank (step : string) : nat :=
  if String.eqb step "START" then 0
  else if String.eqb step "extract" then 1 else 2.

(** ** Completeness of an output made of lists of mappings *)

(** The field is present in the item and truthy. *)
Definition field_truthy (item : dict) (field : string) : bool :=
  match lookup_key field item with
  | Some v => truthy v
  | None => false
  end.

(** How many of the required fields the item has. *)
Definition fields_present (item : dict) : nat :=
  length (List.filter (field_truthy item) CompletenessMetric.required_fields).

Definition item_score (item : dict) : Qc :=
  Qc_of_nat (fields_present item) / Qc_of_nat 3.

Fixpoint as_dicts (l : list value) : option (list dict) :=
  match l with
  | [] => Some []
  | VDict d :: l' => option_map (cons d) (as_dicts l')
  | _ :: _ => None
  end.

(** The items of a category that is absent or a list of mappings. *)
Definition category_items (output : dict) (category : string)
  : option (list dict) :=
  match lookup_key category output with
  | None => Some []
  | Some (VList l) => as_dicts l
  | Some _ => None
  end.

Definition all_items (output : dict) : option (list dict) :=
  match category_items output "work_requests",
        category_items output "work_orders",
        category_items output "tasks" with
  | Some wr, Some wo, Some ts => Some (wr ++ wo ++ ts)%list
  | _, _, _ => None
  end.

(** The mean of the item scores, 0 for no item. *)
Definition mean_item_score (items : list dict) : Qc :=
  match items with
  | [] => 0
  | _ => fold_left Qcplus (map item_score items) 0 / Qc_of_nat (length items)
  end.

(** The running totals of the completeness metric: the sum of the item
    scores stays between 0 and the number of items counted. *)
Definition totals_ok (acc : Qc * nat) : Prop :=
  0 <= fst acc /\ fst acc <= Qc_of_nat (snd acc).

(** ** Step names *)

(** The name under which [build_graph] registers a node function. *)
Definition node_name (n : node) : string :=
  match n with
  | AgentNode agent_name => agent_name
  | ValidateOutputNode => "validate_output"
  end.

(** ** Sample sessions of the primary workflow *)

(** A clock that stands still. *)
Definition still_clock : unit -> Qc * unit := fun w => (0, w).

Definition two_reports : list value :=
  [ VDict [("input", VStr "pump 3 is leaking")];
    VDict [("input", VStr "dryer 12 is noisy");
           ("expected_output", VDict [("tasks", some_item)])] ].

(** The one-step builder with its graph compiled. *)
Definition compiled_builder : GraphBuilder.t :=
  {| GraphBuilder.graph := Some [AgentNode "extract"; ValidateOutputNode];
     GraphBuilder.graph_config :=
       {| cfg_agents := ["extract"];
          cfg_edges := [("START", "extract"); ("extract", "END")] |} |}.

(* ===================================================================== *)
(** * Properties of the metrics *)
(* ===================================================================== *)

Section PyFacts.


Lemma get_dict (d : list (string * value)) (k : string) (default : value) :
  get (VDict d) k default = Ok (from_option id default (lookup_key k d)).
Proof. reflexivity. Qed.

End PyFacts.

Section DowntimeFacts.
Import DowntimeExtractionMetric.




Lemma Qcabs_nonneg (x : Qc) : 0 <= Qcabs x.
Proof.
  unfold Qcabs. case_bool_decide as H.
  - apply Qclt_le_weak in H. apply (Qcopp_le_compat x 0) in H. exact H.
  - apply Qcnot_lt_le, H.
Qed.

End DowntimeFacts.

Section DowntimeMetric.
Import DowntimeExtractionMetric.


End DowntimeMetric.

Section DowntimeMetricInstances.
Import DowntimeExtractionMetric.


(** C4.  The downtime metric leaves the interval [[0,1]]: a negative
    expected downtime of -4 against an actual -5 scores 5/4. *)
Theorem downtime_score_above_one :
  evaluate "" (downtime (VInt (-5))) (downtime (VInt (-4))) = Ok (Q2Qc (5 # 4)) /\
  ~ (Q2Qc (5 # 4) <= 1).
Proof.
  split.
  - vm_compute. reflexivity.
  - intros H. vm_compute in H. apply H. reflexivity.
Qed.

End DowntimeMetricInstances.

Section AbsentExpected.

(** C10.  With [expected_output] [None] or an empty mapping, the category,
    downtime and completeness metrics return exactly 0, whatever the input
    and the actual output are. *)
Theorem absent_expected_scores_zero (input : string) (actual expected : value) :
  expected = VNone \/ expected = VDict [] ->
  CategoryClassificationMetric.evaluate input actual expected = Ok 0 /\
  DowntimeExtractionMetric.evaluate input actual expected = Ok 0 /\
  CompletenessMetric.evaluate input actual expected = Ok 0.
Proof.
  intros [-> | ->]; repeat split; reflexivity.
Qed.

(** Both outputs empty, and an actual output equal to the expected-empty
    default of the closing-comment workflow. *)
Lemma absent_expected_scores_zero_witness :
  (CategoryClassificationMetric.evaluate "" (VDict []) (VDict []) = Ok 0 /\
   DowntimeExtractionMetric.evaluate "" (VDict []) (VDict []) = Ok 0 /\
   CompletenessMetric.evaluate "" (VDict []) (VDict []) = Ok 0) /\
  (CategoryClassificationMetric.evaluate "" (downtime VNone) VNone = Ok 0 /\
   DowntimeExtractionMetric.evaluate "" (downtime VNone) VNone = Ok 0 /\
   CompletenessMetric.evaluate "" (downtime VNone) VNone = Ok 0).
Proof.
  split.
  - apply (absent_expected_scores_zero "" (VDict []) (VDict [])).
    right. reflexivity.
  - apply (absent_expected_scores_zero "" (downtime VNone) VNone).
    left. reflexivity.
Defined.

End AbsentExpected.

Section CategoryMetric.
Import CategoryClassificationMetric.

Lemma categories_of_spec (out : value) (cats : gset string) :
  categories_of out = Ok cats ->
  forall c, c ∈ cats <->
    (c = "work_requests" \/ c = "work_orders" \/ c = "tasks") /\
    exists v, get out c VNone = Ok v /\ truthy v = true.
Proof.
  intros H c. destruct out; try discriminate H.
  unfold categories_of in H. rewrite !get_dict in H. simpl in H.
  injection H as <-.
  destruct (truthy (from_option id VNone (lookup_key "work_requests" d))) eqn:Hwr;
    destruct (truthy (from_option id VNone (lookup_key "work_orders" d))) eqn:Hwo;
    destruct (truthy (from_option id VNone (lookup_key "tasks" d))) eqn:Hts;
    (split;
     [ intros Hc;
       assert (Hcase : c = "work_requests" \/ c = "work_orders" \/ c = "tasks")
         by set_solver;
       split; [exact Hcase |];
       destruct Hcase as [-> | [-> | ->]];
       first [ eexists; split; [apply get_dict | assumption]
             | exfalso; set_solver ]
     | intros [[-> | [-> | ->]] (v & Hv & Htr)];
       rewrite get_dict in Hv; injection Hv as <-;
       first [ congruence | set_solver ] ]).
Qed.

Lemma partial_credit_reachable (ce ca : gset string) :
  ce <> ca -> ce ∪ ca <> ∅.
Proof.
  intros Hne Hempty. apply Hne.
  apply empty_union_L in Hempty as [-> ->]. reflexivity.
Qed.

(** C5, as amended.  For an expected output that is present and non-empty,
    the category metric compares the sets of the categories (among
    work_requests, work_orders, tasks) that are non-empty in the expected and
    in the actual output: 1 when the sets are equal, otherwise their Jaccard
    index, whose union is then never empty; expected [{work_orders}] against
    actual [{work_orders, tasks}] scores 1/2. *)
Theorem category_metric_policy :
  (forall out cats, categories_of out = Ok cats ->
     forall c, c ∈ cats <->
       (c = "work_requests" \/ c = "work_orders" \/ c = "tasks") /\
       exists v, get out c VNone = Ok v /\ truthy v = true) /\
  (forall input actual expected ce ca,
     truthy expected = true ->
     categories_of expected = Ok ce ->
     categories_of actual = Ok ca ->
     (ce = ca -> evaluate input actual expected = Ok 1) /\
     (ce <> ca ->
      ce ∪ ca <> ∅ /\
      evaluate input actual expected
        = Ok (Qc_of_nat (size (ce ∩ ca)) / Qc_of_nat (size (ce ∪ ca))))) /\
  evaluate ""
    (VDict [("work_orders", some_item); ("tasks", some_item)])
    (VDict [("work_orders", some_item)]) = Ok (Q2Qc (1 # 2)).
Proof.
  split; [exact categories_of_spec |].
  split; [| vm_compute; reflexivity].
  intros input actual expected ce ca Hexp Hce Hca.
  unfold evaluate. rewrite Hexp, Hce, Hca. simpl.
  split.
  - intros ->. rewrite bool_decide_eq_true_2; reflexivity.
  - intros Hne. pose proof (partial_credit_reachable ce ca Hne) as Hun.
    split; [exact Hun |].
    rewrite bool_decide_eq_false_2 by exact Hne.
    unfold partial_credit. rewrite bool_decide_eq_false_2 by exact Hun.
    reflexivity.
Qed.

Lemma category_metric_policy_witness :
  ("tasks" ∈ ({["work_orders"]} ∪ {["tasks"]} : gset string)) /\
  evaluate "" (VDict [("tasks", some_item)]) (VDict [("tasks", some_item)])
    = Ok 1.
Proof.
  destruct category_metric_policy as (Hcats & Hscore & _).
  split.
  - apply (Hcats (VDict [("work_orders", some_item); ("tasks", some_item)])).
    + reflexivity.
    + split; [auto |]. exists some_item. split; reflexivity.
  - apply (Hscore "" (VDict [("tasks", some_item)])
             (VDict [("tasks", some_item)]) {["tasks"]} {["tasks"]});
      reflexivity.
Defined.

(** C5, as stated, fails: with an empty expected mapping both category sets
    are empty, hence equal, and the score is 0, not 1. *)
Lemma category_equal_sets_score_zero :
  categories_of (VDict []) = Ok ∅ /\
  evaluate "" (VDict []) (VDict []) = Ok 0 /\
  ~ (forall input actual expected ce ca,
       categories_of expected = Ok ce ->
       categories_of actual = Ok ca ->
       ce = ca -> evaluate input actual expected = Ok 1).
Proof.
  split; [reflexivity |]. split; [reflexivity |].
  intros H.
  specialize (H "" (VDict []) (VDict []) ∅ ∅ eq_refl eq_refl eq_refl).
  vm_compute in H. apply (f_equal (fun r => match r with
                                            | Ok q => this q
                                            | Raise _ => 0%Q
                                            end)) in H.
  discriminate H.
Qed.

End CategoryMetric.

Section AssetMetric.
Import AssetIdentificationMetric.

(** What the first loop leaves in the set, for any table and start. *)
Lemma expected_fold_spec (input_lower : string)
  (table : list (string * list string)) (acc : gset key) (k : key) :
  k ∈ fold_left
        (fun (expected_assets : gset key) (entry : string * list string) =>
           let '(asset_id, variations) := entry in
           if existsb (fun variation => substring_in variation input_lower)
                variations
           then expected_assets ∪ {[KStr asset_id]}
           else expected_assets)
        table acc
  <-> k ∈ acc \/
      exists asset_id variations,
        (asset_id, variations) ∈ table /\ k = KStr asset_id /\
        exists variation, variation ∈ variations /\
                          substring_in variation input_lower = true.
Proof.
  revert acc. induction table as [| [asset_id variations] table IH];
    intros acc; simpl.
  - split; [auto |]. intros [H | (a & vs & H & _)]; [exact H |].
    inversion H.
  - rewrite IH. clear IH.
    destruct (existsb _ variations) eqn:Hex.
    + apply existsb_exists in Hex as (variation & Hin & Hsub).
      apply list_elem_of_In in Hin.
      split.
      * intros [Hk | (a & vs & Hin' & Hrest)].
        -- apply elem_of_union in Hk as [Hk | Hk]; [auto |].
           apply elem_of_singleton in Hk. right.
           exists asset_id, variations.
           split; [left |]. split; [exact Hk |]. eauto.
        -- right. exists a, vs. split; [right; exact Hin' | exact Hrest].
      * intros [Hk | (a & vs & Hin' & Hrest)].
        -- left. apply elem_of_union. auto.
        -- apply elem_of_cons in Hin' as [Heq | Hin'].
           ++ injection Heq as -> ->. destruct Hrest as (-> & _).
              left. apply elem_of_union. right. apply elem_of_singleton.
              reflexivity.
           ++ right. exists a, vs. auto.
    + split.
      * intros [Hk | (a & vs & Hin' & Hrest)]; [auto |].
        right. exists a, vs. split; [right; exact Hin' | exact Hrest].
      * intros [Hk | (a & vs & Hin' & Hrest)]; [auto |].
        apply elem_of_cons in Hin' as [Heq | Hin'].
        -- injection Heq as -> ->.
           destruct Hrest as (_ & variation & Hin & Hsub).
           assert (existsb (fun variation => substring_in variation input_lower)
                     variations = true) as Hyes.
           { apply existsb_exists. exists variation.
             split; [apply list_elem_of_In; exact Hin | exact Hsub]. }
           congruence.
        -- right. exists a, vs. auto.
Qed.

Lemma expected_assets_spec (input : string) (k : key) :
  k ∈ expected_assets_of input <->
  exists asset_id variations,
    (asset_id, variations) ∈ ASSET_MAPPINGS /\ k = KStr asset_id /\
    exists variation, variation ∈ variations /\
                      substring_in variation (lower input) = true.
Proof.
  unfold expected_assets_of. rewrite expected_fold_spec.
  split; [intros [H | H]; [| exact H] | auto].
  apply not_elem_of_empty in H. destruct H.
Qed.

End AssetMetric.

Section AssetMetricPolicy.
Import AssetIdentificationMetric.

Lemma add_items_spec (items : list value) (acc A : gset key) :
  foldM add_item_asset acc items = Ok A ->
  forall k, k ∈ A <->
    k ∈ acc \/ exists item, item ∈ items /\ asset_of_item item k.
Proof.
  revert acc. induction items as [| item items IH]; intros acc H k.
  - injection H as <-. split; [auto |].
    intros [Hk | (item & Hin & _)]; [exact Hk | inversion Hin].
  - simpl in H. destruct (add_item_asset acc item) as [acc' |] eqn:Hitem;
      [| discriminate H].
    simpl in H. rewrite (IH acc' H k). clear IH H.
    unfold add_item_asset in Hitem.
    destruct (get item "asset_id" VNone) as [v |] eqn:Hget;
      [| discriminate Hitem].
    simpl in Hitem. destruct (truthy v) eqn:Htr.
    + destruct (hash_key v) as [k' |] eqn:Hhash; [| discriminate Hitem].
      injection Hitem as <-.
      split.
      * intros [Hk | (it & Hin & Hit)].
        -- apply elem_of_union in Hk as [Hk | Hk]; [auto |].
           apply elem_of_singleton in Hk as ->.
           right. exists item. split; [left |]. exists v. auto.
        -- right. exists it. split; [right; exact Hin | exact Hit].
      * intros [Hk | (it & Hin & Hit)].
        -- left. apply elem_of_union. auto.
        -- apply elem_of_cons in Hin as [-> | Hin].
           ++ destruct Hit as (v' & Hget' & _ & Hhash').
              rewrite Hget in Hget'. injection Hget' as <-.
              rewrite Hhash in Hhash'. injection Hhash' as <-.
              left. apply elem_of_union. right.
              apply elem_of_singleton. reflexivity.
           ++ right. exists it. auto.
    + injection Hitem as <-.
      split.
      * intros [Hk | (it & Hin & Hit)]; [auto |].
        right. exists it. split; [right; exact Hin | exact Hit].
      * intros [Hk | (it & Hin & Hit)]; [auto |].
        apply elem_of_cons in Hin as [-> | Hin].
        -- destruct Hit as (v' & Hget' & Htr' & _).
           rewrite Hget in Hget'. injection Hget' as <-. congruence.
        -- right. exists it. auto.
Qed.

Lemma add_categories_spec (actual_output : value) (categories : list string)
  (acc A : gset key) :
  foldM (add_category_assets actual_output) acc categories = Ok A ->
  forall k, k ∈ A <->
    k ∈ acc \/
    exists category, category ∈ categories /\
                     asset_in_category actual_output category k.
Proof.
  revert acc. induction categories as [| category categories IH];
    intros acc H k.
  - injection H as <-. split; [auto |].
    intros [Hk | (c & Hin & _)]; [exact Hk | inversion Hin].
  - simpl in H.
    destruct (add_category_assets actual_output acc category)
      as [acc' |] eqn:Hcat; [| discriminate H].
    simpl in H. rewrite (IH acc' H k). clear IH H.
    unfold add_category_assets in Hcat.
    destruct (get actual_output category (VList [])) as [items_v |] eqn:Hget;
      [| discriminate Hcat].
    simpl in Hcat.
    destruct (iter items_v) as [items |] eqn:Hiter; [| discriminate Hcat].
    simpl in Hcat. rewrite (add_items_spec items acc acc' Hcat k).
    split.
    + intros [[Hk | (item & Hin & Hit)] | (c & Hin & Hc)].
      * auto.
      * right. exists category. split; [left |].
        exists items_v, items, item. auto.
      * right. exists c. split; [right; exact Hin | exact Hc].
    + intros [Hk | (c & Hin & Hc)]; [auto |].
      apply elem_of_cons in Hin as [-> | Hin].
      * destruct Hc as (items_v' & items' & item & Hget' & Hiter' & Hin & Hit).
        rewrite Hget in Hget'. injection Hget' as <-.
        rewrite Hiter in Hiter'. injection Hiter' as <-.
        left. right. exists item. auto.
      * right. exists c. auto.
Qed.

Lemma actual_assets_spec (actual_output : value) (A : gset key) :
  actual_assets_of actual_output = Ok A ->
  forall k, k ∈ A <->
    exists category,
      category ∈ ["work_requests"; "work_orders"; "tasks"] /\
      asset_in_category actual_output category k.
Proof.
  intros H k. unfold actual_assets_of in H.
  rewrite (add_categories_spec _ _ _ _ H k).
  split; [intros [Hk | Hk]; [| exact Hk] | auto].
  apply not_elem_of_empty in Hk. destruct Hk.
Qed.

Lemma tunnel_washer_expected (input : string) :
  substring_in "tunnel washer 1" (lower input) = true ->
  KStr "tunnel-001" ∈ expected_assets_of input.
Proof.
  intros H. apply expected_assets_spec.
  exists "tunnel-001", ["tunnel washer 1"; "tunnel 1"; "tunnel one"].
  split; [left |]. split; [reflexivity |].
  exists "tunnel washer 1". split; [left | exact H].
Qed.

End AssetMetricPolicy.

Section AssetMetricTheorem.
Import AssetIdentificationMetric.

(** C6.  The asset metric: the expected set is the ids with a phrase variant
    in the lowercased input; when that set is empty the score is 1 whatever
    the outputs; otherwise the actual set is every truthy asset_id of an item
    of the three categories, and the score is 1 on equal sets, else
    |expected ∩ actual| / |expected|.  An input mentioning "tunnel washer 1"
    with no asset id in the output scores 0. *)
Theorem asset_metric_policy :
  (forall input k,
     k ∈ expected_assets_of input <->
     exists asset_id variations,
       (asset_id, variations) ∈ ASSET_MAPPINGS /\ k = KStr asset_id /\
       exists variation, variation ∈ variations /\
                         substring_in variation (lower input) = true) /\
  (forall input actual expected,
     expected_assets_of input = ∅ ->
     evaluate input actual expected = Ok 1) /\
  (forall actual A,
     actual_assets_of actual = Ok A ->
     forall k, k ∈ A <->
       exists category,
         category ∈ ["work_requests"; "work_orders"; "tasks"] /\
         asset_in_category actual category k) /\
  (forall input actual expected A,
     expected_assets_of input <> ∅ ->
     actual_assets_of actual = Ok A ->
     (expected_assets_of input = A -> evaluate input actual expected = Ok 1) /\
     (expected_assets_of input <> A ->
      evaluate input actual expected
        = Ok (Qc_of_nat (size (expected_assets_of input ∩ A))
              / Qc_of_nat (size (expected_assets_of input))))) /\
  (forall input actual expected,
     substring_in "tunnel washer 1" (lower input) = true ->
     actual_assets_of actual = Ok ∅ ->
     evaluate input actual expected = Ok 0).
Proof.
  assert (Hscore : forall input actual expected A,
    expected_assets_of input <> ∅ ->
    actual_assets_of actual = Ok A ->
    (expected_assets_of input = A -> evaluate input actual expected = Ok 1) /\
    (expected_assets_of input <> A ->
     evaluate input actual expected
       = Ok (Qc_of_nat (size (expected_assets_of input ∩ A))
             / Qc_of_nat (size (expected_assets_of input))))).
  { intros input actual expected A Hne HA. unfold evaluate.
    rewrite (bool_decide_eq_false_2 _ Hne), HA. simpl.
    split; intros HEA.
    - rewrite (bool_decide_eq_true_2 _ HEA). reflexivity.
    - rewrite (bool_decide_eq_false_2 _ HEA). reflexivity. }
  split; [exact expected_assets_spec |].
  split; [| split; [exact actual_assets_spec | split; [exact Hscore |]]].
  - intros input actual expected He. unfold evaluate.
    rewrite (bool_decide_eq_true_2 _ He). reflexivity.
  - intros input actual expected Hsub HA.
    pose proof (tunnel_washer_expected input Hsub) as Hin.
    assert (Hne : expected_assets_of input <> ∅).
    { intros He. rewrite He in Hin. apply not_elem_of_empty in Hin. exact Hin. }
    destruct (Hscore input actual expected ∅ Hne HA) as [_ Hrecall].
    rewrite (Hrecall Hne).
    replace (expected_assets_of input ∩ ∅) with (∅ : gset key)
      by (symmetry; apply (right_absorb_L ∅ (∩))).
    rewrite size_empty. f_equal. unfold Qcdiv. apply Qcmult_0_l.
Qed.

Lemma asset_metric_policy_witness :
  KStr "dryer-022" ∈ expected_assets_of "Incline Dryer 22 is hot" /\
  evaluate "nothing to report" untagged_task VNone = Ok 1 /\
  evaluate "Tunnel Washer 1 is leaking" untagged_task VNone = Ok 0 /\
  (KStr "dryer-012" ∈ ({[KStr "dryer-012"]} : gset key) /\
   evaluate "tunnel 1 and dryer 12 are down" tagged_task VNone
     = Ok (Q2Qc (1 # 2))).
Proof.
  destruct asset_metric_policy as (Hexp & Hnone & Hact & Hscore & Htunnel).
  split; [| split; [| split; [| split]]].
  - apply Hexp. exists "dryer-022", ["dryer 22"; "incline dryer 22"].
    split; [do 3 right; left |]. split; [reflexivity |].
    exists "dryer 22". split; [left | reflexivity].
  - apply Hnone. reflexivity.
  - apply Htunnel; reflexivity.
  - apply (Hact tagged_task {[KStr "dryer-012"]} eq_refl).
    exists "tasks". split; [do 2 right; left |].
    exists (VList [VDict [("asset_id", VStr "dryer-012")]]),
           [VDict [("asset_id", VStr "dryer-012")]],
           (VDict [("asset_id", VStr "dryer-012")]).
    split; [reflexivity |]. split; [reflexivity |]. split; [left |].
    exists (VStr "dryer-012"). repeat split.
  - assert (Hne : expected_assets_of "tunnel 1 and dryer 12 are down" <> ∅)
      by (intros Heq; apply (f_equal size) in Heq; vm_compute in Heq;
          discriminate Heq).
    assert (Hdiff : expected_assets_of "tunnel 1 and dryer 12 are down"
                    <> {[KStr "dryer-012"]})
      by (intros Heq; apply (f_equal size) in Heq; vm_compute in Heq;
          discriminate Heq).
    destruct (Hscore "tunnel 1 and dryer 12 are down" tagged_task VNone
                {[KStr "dryer-012"]} Hne eq_refl) as [_ Hrecall].
    rewrite (Hrecall Hdiff). vm_compute. reflexivity.
Defined.

End AssetMetricTheorem.

(* ===================================================================== *)
(** * Properties of the metric set *)
(* ===================================================================== *)

Section DictFacts.
Context {V : Type}.
Implicit Types (d : list (string * V)) (k : string) (v : V).

Lemma lookup_dict_set_eq d k v : lookup_key k (dict_set k v d) = Some v.
Proof.
  induction d as [| [k' v'] d IH]; simpl.
  - rewrite String.eqb_refl. reflexivity.
  - destruct (String.eqb k k') eqn:E; simpl.
    + rewrite String.eqb_refl. reflexivity.
    + rewrite E. exact IH.
Qed.

Lemma lookup_dict_set_ne d k k' v :
  k <> k' -> lookup_key k' (dict_set k v d) = lookup_key k' d.
Proof.
  intros Hne. induction d as [| [k0 v0] d IH]; simpl.
  - destruct (String.eqb k' k) eqn:E; [| reflexivity].
    apply String.eqb_eq in E. congruence.
  - destruct (String.eqb k k0) eqn:E; simpl.
    + apply String.eqb_eq in E. subst k0.
      destruct (String.eqb k' k) eqn:E'; [| reflexivity].
      apply String.eqb_eq in E'. congruence.
    + rewrite IH. reflexivity.
Qed.

Lemma lookup_key_None d k : k ∉ map fst d -> lookup_key k d = None.
Proof.
  induction d as [| [k' v'] d IH]; simpl; [reflexivity |].
  intros Hnot. destruct (String.eqb k k') eqn:E.
  - apply String.eqb_eq in E. subst k'. exfalso. apply Hnot. left.
  - apply IH. intros Hin. apply Hnot. right. exact Hin.
Qed.

Lemma keys_dict_set_new d k v :
  k ∉ map fst d -> map fst (dict_set k v d) = (map fst d ++ [k])%list.
Proof.
  induction d as [| [k' v'] d IH]; simpl; [reflexivity |].
  intros Hnot. destruct (String.eqb k k') eqn:E.
  - apply String.eqb_eq in E. subst k'. exfalso. apply Hnot. left.
  - simpl. rewrite IH; [reflexivity |].
    intros Hin. apply Hnot. right. exact Hin.
Qed.

Lemma keys_dict_set_old d k v :
  k ∈ map fst d -> map fst (dict_set k v d) = map fst d.
Proof.
  induction d as [| [k' v'] d IH]; simpl.
  - intros H. inversion H.
  - intros Hin. destruct (String.eqb k k') eqn:E; simpl.
    + apply String.eqb_eq in E. subst k'. reflexivity.
    + rewrite IH; [reflexivity |].
      apply elem_of_cons in Hin as [-> | Hin]; [| exact Hin].
      rewrite String.eqb_refl in E. discriminate E.
Qed.

(** Assignment keeps the keys of a dict distinct. *)
Lemma NoDup_dict_set d k v :
  NoDup (map fst d) -> NoDup (map fst (dict_set k v d)).
Proof.
  intros Hd. destruct (decide (k ∈ map fst d)) as [Hin | Hnot].
  - rewrite keys_dict_set_old by exact Hin. exact Hd.
  - rewrite keys_dict_set_new by exact Hnot.
    apply NoDup_app. split; [exact Hd |].
    split; [| apply NoDup_singleton].
    intros x Hx Hx'. apply list_elem_of_singleton in Hx'. subst x. auto.
Qed.

End DictFacts.

Section MetricSet.
Import EvaluationFramework.

Lemma add_metric_NoDup (self : t) (metric : BaseMetric) :
  NoDup (map fst self) -> NoDup (map fst (add_metric self metric)).
Proof. apply NoDup_dict_set. Qed.

Lemma evaluate_step_set input actual expected scores name metric :
  evaluate_step input actual expected scores (name, metric)
  = dict_set name (recorded_score metric input actual expected) scores.
Proof.
  unfold evaluate_step, recorded_score.
  destruct (metric_evaluate metric input actual expected); reflexivity.
Qed.

Lemma evaluate_fold_lookup input actual expected (metrics : t) :
  NoDup (map fst metrics) ->
  forall scores name,
    lookup_key name
      (fold_left (evaluate_step input actual expected) metrics scores)
    = match lookup_key name metrics with
      | Some metric => Some (recorded_score metric input actual expected)
      | None => lookup_key name scores
      end.
Proof.
  induction metrics as [| [n m] metrics IH]; intros Hnd scores name;
    [reflexivity |].
  simpl in Hnd. apply NoDup_cons in Hnd as [Hn Hnd].
  cbn [fold_left]. rewrite evaluate_step_set, (IH Hnd). simpl.
  destruct (String.eqb name n) eqn:E.
  - apply String.eqb_eq in E. subst n.
    rewrite (lookup_key_None metrics name Hn). apply lookup_dict_set_eq.
  - destruct (lookup_key name metrics); [reflexivity |].
    apply lookup_dict_set_ne. intros ->. rewrite String.eqb_refl in E.
    discriminate E.
Qed.

Lemma evaluate_fold_keys input actual expected (metrics : t) :
  forall scores : score_map,
    NoDup (map fst scores ++ map fst metrics) ->
    map fst (fold_left (evaluate_step input actual expected) metrics scores)
    = (map fst scores ++ map fst metrics)%list.
Proof.
  induction metrics as [| [n m] metrics IH]; intros scores Hnd.
  - simpl. rewrite app_nil_r. reflexivity.
  - cbn [fold_left map fst]. cbn [map fst] in Hnd. rewrite evaluate_step_set.
    assert (Hn : n ∉ map fst scores).
    { apply NoDup_app in Hnd as (_ & Hdisj & _).
      intros Hin. apply (Hdisj n Hin). left. }
    rewrite IH; rewrite (keys_dict_set_new _ _ _ Hn).
    + rewrite <- app_assoc. reflexivity.
    + rewrite <- app_assoc. exact Hnd.
Qed.

(** C8.  In the metric set a metric that raises is caught on its own: its
    name is recorded with score 0, every other metric is still evaluated and
    recorded with its own score, and the score map has exactly the metric
    names, in order. *)
Theorem metric_failure_is_isolated (self : t) (input : string)
  (actual expected : value) :
  NoDup (map fst self) ->
  map fst (evaluate self input actual expected) = map fst self /\
  forall name metric,
    lookup_key name self = Some metric ->
    (forall e, metric_evaluate metric input actual expected = Raise e ->
       lookup_key name (evaluate self input actual expected) = Some 0) /\
    (forall score, metric_evaluate metric input actual expected = Ok score ->
       lookup_key name (evaluate self input actual expected) = Some score).
Proof.
  intros Hnd. split.
  - unfold evaluate. rewrite evaluate_fold_keys; [reflexivity | exact Hnd].
  - intros name metric Hlookup.
    assert (H : lookup_key name (evaluate self input actual expected)
                = Some (recorded_score metric input actual expected)).
    { unfold evaluate. rewrite (evaluate_fold_lookup _ _ _ _ Hnd), Hlookup.
      reflexivity. }
    unfold recorded_score in H.
    split; intros r Hr; rewrite Hr in H; exact H.
Qed.

Lemma metric_failure_is_isolated_witness :
  let scores := evaluate category_and_asset "all fine" (VList [VInt 1])
                  (VDict [("tasks", VList [])]) in
  map fst scores = [CategoryClassificationMetric.name;
                    AssetIdentificationMetric.name] /\
  lookup_key CategoryClassificationMetric.name scores = Some 0 /\
  lookup_key AssetIdentificationMetric.name scores = Some 1.
Proof.
  assert (Hnd : NoDup (map fst category_and_asset)).
  { apply add_metric_NoDup, add_metric_NoDup. constructor. }
  destruct (metric_failure_is_isolated category_and_asset "all fine"
              (VList [VInt 1]) (VDict [("tasks", VList [])]) Hnd)
    as [Hkeys Hscores].
  split; [exact Hkeys |]. split.
  - destruct (Hscores CategoryClassificationMetric.name
                category_classification_metric eq_refl) as [Hraise _].
    eapply Hraise. reflexivity.
  - destruct (Hscores AssetIdentificationMetric.name
                asset_identification_metric eq_refl) as [_ Hok].
    apply Hok. reflexivity.
Defined.

End MetricSet.

(* ===================================================================== *)
(** * Properties of the step graph *)
(* ===================================================================== *)

Section StepGraph.
Context {World : Type}.
Variable agents : list (string * value).
Variable chain_invoke : value -> string -> M World value.
Variable model_validate : value -> result value.

Local Notation agent_call := (GraphBuilder.agent_call agents chain_invoke).
Local Notation agent_node := (GraphBuilder.agent_node agents chain_invoke).
Local Notation run_node :=
  (GraphBuilder.run_node agents chain_invoke model_validate).
Local Notation invoke :=
  (GraphBuilder.invoke agents chain_invoke model_validate).



(** C1, as amended.  When the model call of a step fails, the step returns
    normally: it leaves [step_results] as it was (no entry is added for the
    step), sets the output to [None], appends the one message
    "Error in <step>: <message>" to [errors], and the steps after it run on
    that state. *)
Theorem failing_step_is_recorded (agent_name : string) (state : BaseState)
  (w w' : World) (e : exn) :
  agent_call agent_name state w = (Raise e, w') ->
  exists state',
    agent_node agent_name state w = (Ok state', w') /\
    step_results state' = step_results state /\
    output_data state' = VNone /\
    errors state'
      = (errors state
         ++ [("Error in " ++ agent_name ++ ": " ++ str_exn e)%string])%list /\
    input_data state' = input_data state /\
    metadata state' = metadata state /\
    forall g, invoke (AgentNode agent_name :: g) state w = invoke g state' w'.
Proof.
  intros Hcall. eexists. split.
  - unfold GraphBuilder.agent_node. rewrite Hcall. reflexivity.
  - repeat split. intros g. simpl. unfold mbind, GraphBuilder.agent_node.
    rewrite Hcall. reflexivity.
Qed.

End StepGraph.

Section StepGraphInstances.

Lemma failing_step_is_recorded_witness :
  exists state',
    GraphBuilder.invoke extract_agents failing_backend accept_all
      [AgentNode "extract"; ValidateOutputNode]
      (GraphBuilder.initial_state "pump 3 is leaking") ()
    = GraphBuilder.invoke extract_agents failing_backend accept_all
        [ValidateOutputNode] state' () /\
    errors state' = ["Error in extract: model timeout"] /\
    output_data state' = VNone.
Proof.
  destruct (failing_step_is_recorded extract_agents failing_backend accept_all
              "extract" (GraphBuilder.initial_state "pump 3 is leaking")
              () () (OtherException "model timeout") eq_refl)
    as (state' & _ & _ & Hout & Herr & _ & _ & Hnext).
  exists state'. split; [apply Hnext |]. split; [exact Herr | exact Hout].
Defined.

(** C1, as stated, fails: after the failing step, [step_results] has no
    entry under the name of the step. *)
Lemma failing_step_leaves_no_entry :
  GraphBuilder.agent_call extract_agents failing_backend "extract"
    (GraphBuilder.initial_state "pump 3 is leaking") ()
  = (Raise (OtherException "model timeout"), ()) /\
  exists state',
    GraphBuilder.agent_node extract_agents failing_backend "extract"
      (GraphBuilder.initial_state "pump 3 is leaking") ()
    = (Ok state', ()) /\
    lookup_key "extract" (step_results state') = None.
Proof.
  split; [reflexivity |]. eexists. split; reflexivity.
Qed.

End StepGraphInstances.

Section Determinism.
Context {World : Type}.
Variable agents : list (string * value).
Variable chain_invoke : value -> string -> M World value.
Variable model_validate : value -> result value.
Variable StateGraph : Type.
Variable new_StateGraph : StateGraph.
Variable add_node : StateGraph -> string -> node -> result StateGraph.
Variable set_entry_point : StateGraph -> string -> result StateGraph.
Variable add_edge : StateGraph -> string -> string -> result StateGraph.
Variable END : string.
Variable compile : StateGraph -> result CompiledGraph.

Local Notation run_node :=
  (GraphBuilder.run_node agents chain_invoke model_validate).
Local Notation invoke :=
  (GraphBuilder.invoke agents chain_invoke model_validate).
Local Notation build_graph :=
  (GraphBuilder.build_graph StateGraph new_StateGraph add_node
     set_entry_point add_edge END compile).
Local Notation execute :=
  (GraphBuilder.execute agents chain_invoke model_validate StateGraph
     new_StateGraph add_node set_entry_point add_edge END compile).

Hypothesis backend_deterministic : deterministic_backend chain_invoke.

Lemma run_node_deterministic (n : node) (state : BaseState) (w1 w2 : World) :
  fst (run_node n state w1) = fst (run_node n state w2).
Proof.
  destruct n as [agent_name |]; simpl.
  - unfold GraphBuilder.agent_node.
    assert (Hcall : fst (GraphBuilder.agent_call agents chain_invoke
                           agent_name state w1)
                  = fst (GraphBuilder.agent_call agents chain_invoke
                           agent_name state w2)).
    { unfold GraphBuilder.agent_call.
      destruct (lookup_key agent_name agents) as [agent |]; [| reflexivity].
      destruct (getitem agent "config" ≫= _); [| reflexivity].
      apply backend_deterministic. }
    destruct (GraphBuilder.agent_call _ _ _ _ w1) as [r1 w1'],
             (GraphBuilder.agent_call _ _ _ _ w2) as [r2 w2'].
    simpl in Hcall. subst r2. destruct r1; reflexivity.
  - unfold GraphBuilder._validate_output_node.
    destruct (truthy (output_data state)); [| reflexivity].
    destruct (model_validate (output_data state)); reflexivity.
Qed.

Lemma invoke_deterministic (g : CompiledGraph) (state : BaseState)
  (w1 w2 : World) :
  fst (invoke g state w1) = fst (invoke g state w2).
Proof.
  revert state w1 w2. induction g as [| n g IH]; intros state w1 w2;
    [reflexivity |].
  simpl. unfold mbind.
  pose proof (run_node_deterministic n state w1 w2) as Hn.
  destruct (run_node n state w1) as [r1 w1'],
           (run_node n state w2) as [r2 w2'].
  simpl in Hn. subst r2. destruct r1 as [state1 | e]; [apply IH | reflexivity].
Qed.

(** C9.  With a deterministic backend, executing twice on the same input
    (the second time on the builder as the first left it, in any state of
    the world) gives the same outcome: the same final run state with its
    output, step results, errors and metadata; and the builder keeps the
    graph it compiled. *)
Theorem execute_twice_same_state (self self1 self2 : GraphBuilder.t)
  (input_text : string) (w1 w1' w2 w2' : World) (r1 r2 : result BaseState) :
  execute self input_text w1 = ((r1, self1), w1') ->
  execute self1 input_text w2 = ((r2, self2), w2') ->
  r1 = r2 /\ self2 = self1.
Proof.
  unfold GraphBuilder.execute. intros H1 H2.
  destruct (GraphBuilder.graph self) as [g |] eqn:Hg.
  - (* the graph is already compiled *)
    pose proof (invoke_deterministic g
                  (GraphBuilder.initial_state input_text) w1 w2) as Hdet.
    destruct (invoke g _ w1) as [ra wa]. injection H1 as <- <- <-.
    simpl in H2. destruct (invoke g _ w2) as [rb wb].
    injection H2 as <- <- <-. simpl in Hdet. auto.
  - destruct (build_graph self) as [g | e] eqn:Hbuild.
    + pose proof (invoke_deterministic g
                    (GraphBuilder.initial_state input_text) w1 w2) as Hdet.
      destruct (invoke g _ w1) as [ra wa]. injection H1 as <- <- <-.
      simpl in H2. destruct (invoke g _ w2) as [rb wb].
      injection H2 as <- <- <-. simpl in Hdet. auto.
    + injection H1 as <- <- <-. rewrite Hg, Hbuild in H2.
      injection H2 as <- <- <-. auto.
Qed.

End Determinism.

Section DeterminismInstance.

Lemma execute_twice_same_state_witness :
  let execute :=
    GraphBuilder.execute extract_agents counting_backend accept_all
      (list node) [] listing_add_node listing_set_entry_point
      listing_add_edge "__end__" Ok in
  let '((r1, self1), calls) := execute extract_builder "pump 3 is leaking" O in
  let '((r2, _), _) := execute self1 "pump 3 is leaking" calls in
  GraphBuilder.graph self1 = Some [AgentNode "extract"; ValidateOutputNode] /\
  calls = 1%nat /\ r1 = r2.
Proof.
  intros execute.
  destruct (execute extract_builder "pump 3 is leaking" O)
    as [[r1 self1] calls] eqn:E1.
  destruct (execute self1 "pump 3 is leaking" calls) as [[r2 self2] calls2] eqn:E2.
  split; [| split].
  - vm_compute in E1. injection E1 as _ <- _. reflexivity.
  - vm_compute in E1. injection E1 as _ _ <-. reflexivity.
  - refine (proj1 (execute_twice_same_state extract_agents counting_backend
                     accept_all (list node) [] listing_add_node
                     listing_set_entry_point listing_add_edge "__end__" Ok
                     _ extract_builder self1 self2 "pump 3 is leaking"
                     O calls calls calls2 r1 r2 E1 E2)).
    intros prompt input w1 w2. reflexivity.
Defined.

End DeterminismInstance.

(* ===================================================================== *)
(** * Properties of the evaluation session *)
(* ===================================================================== *)

Section EvaluationSession.
Context {World : Type}.
Variable process_input : string -> M World value.
Variable evaluate_output : string -> value -> value -> M World score_map.
Variable time : World -> Qc * World.

Local Notation evaluate_item :=
  (BaseWorkflow.evaluate_item process_input evaluate_output time).
Local Notation run_loop :=
  (BaseWorkflow.run_loop process_input evaluate_output time).
Local Notation run_evaluation :=
  (BaseWorkflow.run_evaluation process_input evaluate_output time).
Local Notation attempt_outcome :=
  (attempt_outcome process_input evaluate_output).
Local Notation item_outcome :=
  (item_outcome process_input evaluate_output time).
Local Notation run_outcome :=
  (run_outcome process_input evaluate_output time).

Lemma run_outcome_length dataset w results w' :
  run_outcome dataset w results w' -> length results = length dataset.
Proof. induction 1; simpl; congruence. Qed.

Lemma evaluate_item_outcome (item : value) (w : World) :
  well_formed_item item ->
  exists r w', evaluate_item item w = (Ok r, w') /\ item_outcome item w r w'.
Proof.
  intros [input Hinput].
  assert (Hdict : exists d, item = VDict d).
  { destruct item; simpl in Hinput; try discriminate Hinput. eauto. }
  destruct Hdict as [d ->].
  unfold BaseWorkflow.evaluate_item, item_outcome, attempt_outcome.
  rewrite Hinput. destruct (time w) as [start_time w0] eqn:Hstart.
  unfold BaseWorkflow.try_item. simpl get. cbn [snd fst].
  destruct (process_input input w0) as [[actual | e] wp] eqn:Hproc.
  - destruct (evaluate_output input actual _ wp) as [[scores | e] we] eqn:Hev.
    + destruct (time we) as [end_time w'] eqn:Hend.
      eexists _, w'. split; [reflexivity |].
      exists input, we. rewrite Hproc, Hend. simpl.
      repeat split. eexists. split; [reflexivity |].
      rewrite Hev. repeat split.
    + destruct (time we) as [end_time w'] eqn:Hend.
      eexists _, w'. split; [reflexivity |].
      exists input, we. rewrite Hproc, Hend. simpl.
      repeat split. eexists. split; [reflexivity |].
      rewrite Hev. repeat split.
  - destruct (time wp) as [end_time w'] eqn:Hend.
    eexists _, w'. split; [reflexivity |].
    exists input, wp. rewrite Hproc, Hend. simpl. repeat split.
Qed.

Lemma run_loop_outcome (dataset : list value) :
  Forall well_formed_item dataset ->
  forall acc w, exists results w',
    run_loop dataset acc w = (Ok (acc ++ results)%list, w') /\
    run_outcome dataset w results w'.
Proof.
  induction 1 as [| item dataset Hitem _ IH]; intros acc w.
  - exists [], w. simpl. rewrite app_nil_r. split; [reflexivity | constructor].
  - destruct (evaluate_item_outcome item w Hitem) as (r & w1 & Hr & Hout).
    destruct (IH (acc ++ [r])%list w1) as (results & w2 & Hloop & Hrun).
    exists (r :: results), w2. split.
    + simpl. unfold mbind. rewrite Hr, Hloop, <- app_assoc. reflexivity.
    + econstructor; eassumption.
Qed.

(** C7, as amended.  On a dataset whose items are mappings with a string
    under "input", [run_evaluation] returns one result per item, in order.  An item whose processing or scoring raises
    gets [success = false], the message of the exception as its error and
    an empty metrics map, and the next item is evaluated from the world the
    failure left; the execution time of every item is the clock difference
    around its attempt, whatever the outcome. *)
Theorem item_failure_does_not_abort (dataset : list value) (w : World) :
  Forall well_formed_item dataset ->
  exists results w',
    run_evaluation dataset w = (Ok results, w') /\
    length results = length dataset /\
    run_outcome dataset w results w'.
Proof.
  intros Hwf.
  destruct (run_loop_outcome dataset Hwf [] w) as (results & w' & Hloop & Hrun).
  exists results, w'. split; [exact Hloop |].
  split; [exact (run_outcome_length _ _ _ _ Hrun) | exact Hrun].
Qed.

End EvaluationSession.

Section SessionInstance.

Lemma item_failure_does_not_abort_witness :
  exists results w',
    BaseWorkflow.run_evaluation fragile_process_input fragile_evaluate_output
      ticking_clock three_items O = (Ok results, w') /\
    map success results = [false; false; true] /\
    map result_errors results
      = [["recursion limit reached"];
         ["'str' object has no attribute 'get'"]; []] /\
    map metrics results
      = [[]; []; [(CategoryClassificationMetric.name, 0);
                  (AssetIdentificationMetric.name, 1)]] /\
    map execution_time results = [Q2Qc 2; Q2Qc 2; Q2Qc 2].
Proof.
  assert (Hwf : Forall well_formed_item three_items).
  { repeat constructor; eexists; reflexivity. }
  destruct (item_failure_does_not_abort fragile_process_input
              fragile_evaluate_output ticking_clock three_items O Hwf)
    as (results & w' & Hrun & _ & _).
  exists results, w'. split; [exact Hrun |].
  vm_compute in Hrun. injection Hrun as <- _.
  repeat split; reflexivity.
Defined.

(** C7, as stated, fails: an item without "input" ends the whole run with a
    [KeyError], the result of the item before it included. *)
Lemma missing_input_aborts_run :
  ~ Forall well_formed_item missing_input_items /\
  fst (BaseWorkflow.run_evaluation fragile_process_input fragile_evaluate_output
         ticking_clock missing_input_items O)
  = Raise (KeyError "input").
Proof.
  split; [| reflexivity].
  intros H. apply Forall_cons in H as [_ H]. apply Forall_cons in H as [[input H] _].
  discriminate H.
Qed.

End SessionInstance.

(* ===================================================================== *)
(** * Properties of graph compilation *)
(* ===================================================================== *)

Section BuildGraph.
Context {World : Type}.
Variable agents : list (string * value).
Variable chain_invoke : value -> string -> M World value.
Variable model_validate : value -> result value.
Variable StateGraph : Type.
Variable new_StateGraph : StateGraph.
Variable add_node : StateGraph -> string -> node -> result StateGraph.
Variable set_entry_point : StateGraph -> string -> result StateGraph.
Variable add_edge : StateGraph -> string -> string -> result StateGraph.
Variable END : string.
Variable compile : StateGraph -> result CompiledGraph.

Local Notation build_graph :=
  (GraphBuilder.build_graph StateGraph new_StateGraph add_node
     set_entry_point add_edge END compile).
Local Notation execute :=
  (GraphBuilder.execute agents chain_invoke model_validate StateGraph
     new_StateGraph add_node set_entry_point add_edge END compile).
Local Notation run_call :=
  (run_call StateGraph add_node set_entry_point add_edge).

Lemma foldM_app {A B} (f : B -> A -> result B) (l1 l2 : list A) (acc : B) :
  foldM f acc (l1 ++ l2) = foldM f acc l1 ≫= fun acc' => foldM f acc' l2.
Proof.
  revert acc. induction l1 as [| x l1 IH]; intros acc; simpl; [reflexivity |].
  destruct (f acc x) as [acc' | e]; simpl; [apply IH | reflexivity].
Qed.

Lemma foldM_add_agents (names : list string) (graph : StateGraph) :
  foldM (fun graph agent_name =>
           add_node graph agent_name (AgentNode agent_name)) graph names
  = foldM run_call graph
      (map (fun agent_name => AddNode agent_name (AgentNode agent_name)) names).
Proof.
  revert graph. induction names as [| name names IH]; intros graph; simpl;
    [reflexivity |].
  destruct (add_node graph name (AgentNode name)); simpl;
    [apply IH | reflexivity].
Qed.

Lemma add_config_edge_calls (graph : StateGraph) (edge : string * string) :
  GraphBuilder.add_config_edge StateGraph set_entry_point add_edge END graph edge
  = foldM run_call graph (edge_calls END edge).
Proof.
  destruct edge as [from_node to_node].
  unfold GraphBuilder.add_config_edge, edge_calls.
  destruct (String.eqb from_node "START"); simpl.
  - destruct (set_entry_point graph to_node); reflexivity.
  - destruct (String.eqb to_node "END"); simpl.
    + destruct (add_edge graph from_node "validate_output") as [g |]; simpl;
        [| reflexivity].
      destruct (add_edge g "validate_output" END); reflexivity.
    + destruct (add_edge graph from_node to_node); reflexivity.
Qed.

Lemma foldM_add_edges (edges : list (string * string)) (graph : StateGraph) :
  foldM (GraphBuilder.add_config_edge StateGraph set_entry_point add_edge END)
    graph edges
  = foldM run_call graph (flat_map (edge_calls END) edges).
Proof.
  revert graph. induction edges as [| edge edges IH]; intros graph;
    [reflexivity |].
  cbn [foldM flat_map]. rewrite foldM_app, add_config_edge_calls.
  destruct (foldM run_call graph (edge_calls END edge)); simpl;
    [apply IH | reflexivity].
Qed.

Lemma build_graph_calls (self : GraphBuilder.t) :
  build_graph self
  = (foldM run_call new_StateGraph (calls_of END (GraphBuilder.graph_config self))
     ≫= compile).
Proof.
  unfold GraphBuilder.build_graph, calls_of.
  rewrite foldM_add_agents, !foldM_app.
  destruct (foldM run_call new_StateGraph _) as [g1 |]; [| reflexivity].
  simpl.
  destruct (add_node g1 "validate_output" ValidateOutputNode) as [g2 |];
    [| reflexivity].
  simpl. rewrite foldM_add_edges. reflexivity.
Qed.

(** C2, as amended.  [build_graph] checks nothing itself: it issues, in order,
    [add_node] for every declared agent and for validate_output, then for
    every configured edge [set_entry_point] (from START), or the two edges
    through validate_output (into END), or [add_edge], and at last [compile];
    it raises exactly what the first failing call raises.  When it raises,
    [execute] raises the same exception before any step has run: the world
    and the builder are as before. *)
Theorem build_graph_delegates (self : GraphBuilder.t) :
  build_graph self
  = (foldM run_call new_StateGraph (calls_of END (GraphBuilder.graph_config self))
     ≫= compile) /\
  forall input_text w e,
    GraphBuilder.graph self = None ->
    build_graph self = Raise e ->
    execute self input_text w = ((Raise e, self), w).
Proof.
  split; [apply build_graph_calls |].
  intros input_text w e Hnone Hfail. unfold GraphBuilder.execute.
  rewrite Hnone, Hfail. reflexivity.
Qed.

End BuildGraph.

Section BuildGraphInstances.

Lemma build_graph_delegates_witness :
  GraphBuilder.execute extract_agents counting_backend accept_all
    (list node) [] listing_add_node listing_set_entry_point listing_add_edge
    langgraph_END rejecting_compile no_start_builder "pump 3 is leaking" O
  = ((Raise (OtherException "Graph must have an entrypoint"), no_start_builder),
     O).
Proof.
  apply (build_graph_delegates extract_agents counting_backend accept_all
           (list node) [] listing_add_node listing_set_entry_point
           listing_add_edge langgraph_END rejecting_compile no_start_builder);
    reflexivity.
Defined.

Lemma routed_by_end_ranked (x y : string) :
  tc (fun x y => (x, y) ∈ cfg_edges routed_by_end) x y ->
  (edge_rank x < edge_rank y)%nat.
Proof.
  induction 1 as [x y Hxy | x y z Hxy _ IH].
  - apply elem_of_cons in Hxy as [Hxy | Hxy];
      [| apply list_elem_of_singleton in Hxy];
      injection Hxy as -> ->; vm_compute; lia.
  - assert (edge_rank x < edge_rank y)%nat; [| lia].
    apply elem_of_cons in Hxy as [Hxy | Hxy];
      [| apply list_elem_of_singleton in Hxy];
      injection Hxy as -> ->; vm_compute; lia.
Qed.

(** C2, as stated, fails.  The first configuration meets none of the three
    conditions and the second references the undeclared step
    validate_output, yet both make [build_graph] issue the same calls: no
    builder fails on exactly the configurations the conditions single out. *)
Lemma same_calls_opposite_conditions :
  ~ spec_compile_fails routed_by_end /\
  spec_compile_fails routed_by_hand /\
  calls_of langgraph_END routed_by_end = calls_of langgraph_END routed_by_hand /\
  ~ exists (StateGraph : Type) (new_StateGraph : StateGraph)
      (add_node : StateGraph -> string -> node -> result StateGraph)
      (set_entry_point : StateGraph -> string -> result StateGraph)
      (add_edge : StateGraph -> string -> string -> result StateGraph)
      (compile : StateGraph -> result CompiledGraph),
      forall cfg,
        raises (GraphBuilder.build_graph StateGraph new_StateGraph add_node
                  set_entry_point add_edge langgraph_END compile
                  {| GraphBuilder.graph := None;
                     GraphBuilder.graph_config := cfg |})
        <-> spec_compile_fails cfg.
Proof.
  assert (Hend : ~ spec_compile_fails routed_by_end).
  { intros [Hstart | [(edge & Hin & Hundeclared) | (step & Hcycle)]].
    - apply (Hstart ("START", "extract")); [left | reflexivity].
    - apply elem_of_cons in Hin as [-> | Hin];
        [| apply list_elem_of_singleton in Hin as ->]; simpl in Hundeclared.
      + destruct Hundeclared as [[Hne _] | [_ Hnot]];
          [congruence | apply Hnot; left].
      + destruct Hundeclared as [[_ Hnot] | [Hne _]];
          [apply Hnot; left | congruence].
    - apply routed_by_end_ranked in Hcycle. lia. }
  assert (Hhand : spec_compile_fails routed_by_hand).
  { right. left. exists ("extract", "validate_output").
    split; [right; left |]. right. simpl. split; [discriminate |].
    intros Hin. apply list_elem_of_singleton in Hin. discriminate Hin. }
  split; [exact Hend |]. split; [exact Hhand |]. split; [reflexivity |].
  intros (StateGraph & new_StateGraph & add_node & set_entry_point & add_edge
          & compile & Hiff).
  apply Hend. apply Hiff.
  apply (Hiff routed_by_hand) in Hhand.
  rewrite build_graph_calls in Hhand. rewrite build_graph_calls.
  exact Hhand.
Qed.

End BuildGraphInstances.

(* ===================================================================== *)
(** * Ranges and shapes of the scores *)
(* ===================================================================== *)

Section RationalFacts.

Lemma Qc_of_nat_le (n m : nat) : (n <= m)%nat -> Qc_of_nat n <= Qc_of_nat m.
Proof.
  intros H. unfold Qcle, Qc_of_nat, Qc_of_Z. simpl.
  rewrite <- Zle_Qle. lia.
Qed.

Lemma Qc_of_nat_pos (n : nat) : (0 < n)%nat -> 0 < Qc_of_nat n.
Proof.
  intros H. unfold Qclt, Qc_of_nat, Qc_of_Z. simpl.
  change (inject_Z 0 < inject_Z (Z.of_nat n))%Q. rewrite <- Zlt_Qlt. lia.
Qed.

Lemma Qc_of_nat_nonneg (n : nat) : 0 <= Qc_of_nat n.
Proof. apply (Qc_of_nat_le 0 n). lia. Qed.

Lemma Qc_of_nat_inj (n m : nat) : Qc_of_nat n = Qc_of_nat m -> n = m.
Proof.
  intros H. apply (f_equal this) in H. unfold Qc_of_nat, Qc_of_Z in H.
  simpl in H. injection H as H. lia.
Qed.

Lemma Qc_of_nat_0 : Qc_of_nat 0 = 0.
Proof. apply Qc_is_canon. reflexivity. Qed.

Lemma Qc_of_nat_S (n : nat) : Qc_of_nat (S n) = Qc_of_nat n + 1.
Proof.
  apply Qc_is_canon. unfold Qc_of_nat, Qc_of_Z. simpl.
  rewrite Qred_correct, Nat2Z.inj_succ. unfold Z.succ.
  rewrite inject_Z_plus. reflexivity.
Qed.

Lemma Qc_pos_nonzero (b : Qc) : 0 < b -> b <> 0.
Proof. intros Hb ->. apply (Qclt_not_eq 0 0 Hb). reflexivity. Qed.

Lemma Qcdiv_mult_cancel (a b : Qc) : b <> 0 -> a / b * b = a.
Proof. intros Hb. field. exact Hb. Qed.

Lemma Qcdiv_le (a b c : Qc) : 0 < b -> a <= c * b -> a / b <= c.
Proof.
  intros Hb H. apply (Qcmult_lt_0_le_reg_r _ _ b Hb).
  rewrite (Qcdiv_mult_cancel a b (Qc_pos_nonzero b Hb)). exact H.
Qed.

Lemma Qcdiv_ge (a b c : Qc) : 0 < b -> c * b <= a -> c <= a / b.
Proof.
  intros Hb H. apply (Qcmult_lt_0_le_reg_r _ _ b Hb).
  rewrite (Qcdiv_mult_cancel a b (Qc_pos_nonzero b Hb)). exact H.
Qed.

Lemma Qcdiv_unit (a b : Qc) :
  0 <= a -> a <= b -> 0 < b -> 0 <= a / b /\ a / b <= 1.
Proof.
  intros Ha Hab Hb. split.
  - apply Qcdiv_ge; [exact Hb |]. rewrite Qcmult_0_l. exact Ha.
  - apply Qcdiv_le; [exact Hb |]. rewrite Qcmult_1_l. exact Hab.
Qed.

Lemma ratio_unit (n m : nat) :
  (n <= m)%nat -> (0 < m)%nat ->
  0 <= Qc_of_nat n / Qc_of_nat m /\ Qc_of_nat n / Qc_of_nat m <= 1.
Proof.
  intros Hnm Hm.
  apply Qcdiv_unit;
    auto using Qc_of_nat_nonneg, Qc_of_nat_le, Qc_of_nat_pos.
Qed.

Lemma zero_unit : 0 <= 0 /\ (0 : Qc) <= 1.
Proof. split; [apply Qcle_refl | discriminate]. Qed.

Lemma one_unit : 0 <= 1 /\ (1 : Qc) <= 1.
Proof. split; [discriminate | apply Qcle_refl]. Qed.

End RationalFacts.

Section ScoreRanges.

Lemma gset_nonempty_size {K} `{Countable K} (X : gset K) :
  X <> ∅ -> (0 < size X)%nat.
Proof.
  intros Hne. destruct (size X) eqn:E; [| lia].
  apply size_empty_inv in E. exfalso. apply Hne.
  apply leibniz_equiv. exact E.
Qed.

Lemma category_evaluate_unit (input : string)
  (actual expected : value) (score : Qc) :
  CategoryClassificationMetric.evaluate input actual expected = Ok score ->
  0 <= score /\ score <= 1.
Proof.
  unfold CategoryClassificationMetric.evaluate.
  destruct (truthy expected); simpl.
  - destruct (CategoryClassificationMetric.categories_of expected) as [ce |];
      [| discriminate]. simpl.
    destruct (CategoryClassificationMetric.categories_of actual) as [ca |];
      [| discriminate]. simpl.
    case_bool_decide as Heq; intros [= <-]; [apply one_unit |].
    unfold CategoryClassificationMetric.partial_credit.
    case_bool_decide as Hun; [apply zero_unit |].
    apply ratio_unit.
    + apply subseteq_size. set_solver.
    + apply gset_nonempty_size, Hun.
  - intros [= <-]. apply zero_unit.
Qed.

(** X1.  Whenever the category metric returns a score, the score lies in
    [[0,1]]. *)
Theorem category_score_in_unit_interval (input : string)
  (actual expected : value) (score : Qc) :
  CategoryClassificationMetric.evaluate input actual expected = Ok score ->
  0 <= score /\ score <= 1.
Proof. exact (category_evaluate_unit input actual expected score). Qed.

Lemma category_score_in_unit_interval_witness :
  CategoryClassificationMetric.evaluate ""
    (VDict [("work_orders", some_item); ("tasks", some_item)])
    (VDict [("work_orders", some_item)]) = Ok (Q2Qc (1 # 2))
  /\ 0 <= Q2Qc (1 # 2) /\ Q2Qc (1 # 2) <= 1.
Proof.
  assert (H : CategoryClassificationMetric.evaluate ""
                (VDict [("work_orders", some_item); ("tasks", some_item)])
                (VDict [("work_orders", some_item)]) = Ok (Q2Qc (1 # 2)))
    by (vm_compute; reflexivity).
  split; [exact H |].
  exact (category_score_in_unit_interval _ _ _ _ H).
Defined.

(** X2.  The category metric is symmetric: on two non-empty outputs whose
    categories can be read, swapping actual and expected gives the same
    score. *)
Theorem category_score_symmetric (input : string) (a b : value)
  (ca cb : gset string) :
  truthy a = true -> truthy b = true ->
  CategoryClassificationMetric.categories_of a = Ok ca ->
  CategoryClassificationMetric.categories_of b = Ok cb ->
  CategoryClassificationMetric.evaluate input a b
  = CategoryClassificationMetric.evaluate input b a.
Proof.
  intros Ha Hb Hca Hcb. unfold CategoryClassificationMetric.evaluate.
  rewrite Ha, Hb, Hca, Hcb. simpl.
  case_bool_decide as H1; case_bool_decide as H2; try congruence.
  unfold CategoryClassificationMetric.partial_credit.
  rewrite (comm_L (∪) cb ca), (comm_L (∩) cb ca). reflexivity.
Qed.

Lemma category_score_symmetric_witness :
  CategoryClassificationMetric.evaluate ""
    (VDict [("work_orders", some_item); ("tasks", some_item)])
    (VDict [("work_orders", some_item)])
  = CategoryClassificationMetric.evaluate ""
      (VDict [("work_orders", some_item)])
      (VDict [("work_orders", some_item); ("tasks", some_item)]).
Proof.
  apply (category_score_symmetric ""
           (VDict [("work_orders", some_item); ("tasks", some_item)])
           (VDict [("work_orders", some_item)])
           ({["work_orders"]} ∪ {["tasks"]}) {["work_orders"]});
    reflexivity.
Defined.

Lemma asset_evaluate_unit (input : string)
  (actual expected : value) (score : Qc) :
  AssetIdentificationMetric.evaluate input actual expected = Ok score ->
  0 <= score /\ score <= 1.
Proof.
  unfold AssetIdentificationMetric.evaluate.
  case_bool_decide as He; [intros [= <-]; apply one_unit |].
  destruct (AssetIdentificationMetric.actual_assets_of actual) as [A |];
    [| discriminate]. simpl.
  case_bool_decide as Heq; intros [= <-]; [apply one_unit |].
  apply ratio_unit.
  - apply subseteq_size. set_solver.
  - apply gset_nonempty_size, He.
Qed.

(** X3.  Whenever the asset metric returns a score, the score lies in
    [[0,1]]. *)
Theorem asset_score_in_unit_interval (input : string)
  (actual expected : value) (score : Qc) :
  AssetIdentificationMetric.evaluate input actual expected = Ok score ->
  0 <= score /\ score <= 1.
Proof. exact (asset_evaluate_unit input actual expected score). Qed.

Lemma asset_score_in_unit_interval_witness :
  AssetIdentificationMetric.evaluate "tunnel 1 feeds dryer 12"
    tagged_task VNone = Ok (Q2Qc (1 # 2))
  /\ 0 <= Q2Qc (1 # 2) /\ Q2Qc (1 # 2) <= 1.
Proof.
  assert (H : AssetIdentificationMetric.evaluate "tunnel 1 feeds dryer 12"
                tagged_task VNone = Ok (Q2Qc (1 # 2)))
    by (vm_compute; reflexivity).
  split; [exact H |].
  exact (asset_score_in_unit_interval _ _ _ _ H).
Defined.

(** X4.  When the input mentions assets, the asset metric gives the full
    score exactly when every mentioned asset is among the asset ids of the
    output: ids in excess cost nothing. *)
Theorem asset_score_one_iff_covered (input : string)
  (actual expected : value) (A : gset key) :
  AssetIdentificationMetric.expected_assets_of input <> ∅ ->
  AssetIdentificationMetric.actual_assets_of actual = Ok A ->
  AssetIdentificationMetric.evaluate input actual expected = Ok 1
  <-> AssetIdentificationMetric.expected_assets_of input ⊆ A.
Proof.
  intros Hne HA. unfold AssetIdentificationMetric.evaluate.
  set (E := AssetIdentificationMetric.expected_assets_of input) in *.
  rewrite (bool_decide_eq_false_2 _ Hne), HA. simpl.
  pose proof (gset_nonempty_size E Hne) as Hpos.
  case_bool_decide as Heq.
  - split; [intros _; rewrite Heq; reflexivity | reflexivity].
  - split.
    + intros Hratio.
      apply (f_equal (fun r => match r with Ok q => q | Raise _ => 0 end))
        in Hratio.
      assert (Hsize : Qc_of_nat (size (E ∩ A)) = Qc_of_nat (size E)).
      { rewrite <- (Qcdiv_mult_cancel (Qc_of_nat (size (E ∩ A)))
                      (Qc_of_nat (size E)))
          by (apply Qc_pos_nonzero, Qc_of_nat_pos, Hpos).
        rewrite Hratio. apply Qcmult_1_l. }
      apply Qc_of_nat_inj in Hsize.
      assert (Hsub : E ∩ A = E).
      { apply leibniz_equiv. apply set_subseteq_size_equiv; [set_solver | lia]. }
      set_solver.
    + intros Hsub. f_equal.
      replace (E ∩ A) with E by set_solver.
      unfold Qcdiv. apply Qcmult_inv_r.
      apply Qc_pos_nonzero, Qc_of_nat_pos, Hpos.
Qed.

Lemma asset_score_one_iff_covered_witness :
  AssetIdentificationMetric.evaluate "dryer 12 is noisy"
    (VDict [("tasks", VList [VDict [("asset_id", VStr "dryer-012")];
                             VDict [("asset_id", VStr "pump-7")]])])
    VNone = Ok 1.
Proof.
  apply (asset_score_one_iff_covered "dryer 12 is noisy" _ VNone
           ({[KStr "dryer-012"]} ∪ {[KStr "pump-7"]})).
  - intros Heq. apply (f_equal size) in Heq. vm_compute in Heq.
    discriminate Heq.
  - reflexivity.
  - replace (AssetIdentificationMetric.expected_assets_of "dryer 12 is noisy")
      with ({[KStr "dryer-012"]} : gset key) by reflexivity.
    set_solver.
Defined.

End ScoreRanges.

Section DowntimeRange.
Import DowntimeExtractionMetric.






End DowntimeRange.

Section Completeness.
Import CompletenessMetric.

Lemma foldM_invariant {A B} (P : B -> Prop) (f : B -> A -> result B)
  (l : list A) :
  (forall acc x acc', P acc -> f acc x = Ok acc' -> P acc') ->
  forall acc r, P acc -> foldM f acc l = Ok r -> P r.
Proof.
  intros Hstep. induction l as [| x l IH]; intros acc r Hacc Hfold.
  - injection Hfold as <-. exact Hacc.
  - simpl in Hfold. destruct (f acc x) as [acc' |] eqn:Hf; [| discriminate].
    simpl in Hfold. apply (IH acc' r); [| exact Hfold].
    apply (Hstep acc x acc' Hacc Hf).
Qed.

Lemma foldM_ext {A B} (f g : B -> A -> result B) (l : list A) :
  (forall acc x, f acc x = g acc x) ->
  forall acc, foldM f acc l = foldM g acc l.
Proof.
  intros Hfg. induction l as [| x l IH]; intros acc; [reflexivity |].
  simpl. rewrite Hfg. destruct (g acc x); simpl; [apply IH | reflexivity].
Qed.

Lemma add_field_range (item : value) (acc r : Qc) (field : string) :
  add_field item acc field = Ok r -> acc <= r /\ r <= acc + 1.
Proof.
  unfold add_field. destruct (contains item field) as [[|] |]; simpl;
    [| | discriminate].
  - destruct (getitem item field) as [v |]; simpl; [| discriminate].
    destruct (truthy v); intros [= <-].
    + split.
      * rewrite <- (Qcplus_0_r acc) at 1. apply Qcplus_le_mono_l. discriminate.
      * apply Qcle_refl.
    + split; [apply Qcle_refl |].
      rewrite <- (Qcplus_0_r acc) at 1. apply Qcplus_le_mono_l. discriminate.
  - intros [= <-]. split; [apply Qcle_refl |].
    rewrite <- (Qcplus_0_r acc) at 1. apply Qcplus_le_mono_l. discriminate.
Qed.

Lemma add_fields_range (item : value) (fields : list string) (acc r : Qc) :
  foldM (add_field item) acc fields = Ok r ->
  acc <= r /\ r <= acc + Qc_of_nat (length fields).
Proof.
  revert acc. induction fields as [| field fields IH]; intros acc Hfold.
  - injection Hfold as <-. split; [apply Qcle_refl |].
    simpl length. rewrite Qc_of_nat_0, Qcplus_0_r. apply Qcle_refl.
  - simpl in Hfold.
    destruct (add_field item acc field) as [acc' |] eqn:Hf; [| discriminate].
    simpl in Hfold. apply add_field_range in Hf as [Hlow Hhigh].
    apply IH in Hfold as [Hlow' Hhigh']. split.
    + apply Qcle_trans with acc'; assumption.
    + apply Qcle_trans with (acc' + Qc_of_nat (length fields));
        [exact Hhigh' |].
      simpl length. rewrite Qc_of_nat_S.
      replace (acc + (Qc_of_nat (length fields) + 1))
        with ((acc + 1) + Qc_of_nat (length fields)) by ring.
      apply Qcplus_le_mono_r. exact Hhigh.
Qed.

Lemma add_item_totals (acc : Qc * nat) (item : value) (acc' : Qc * nat) :
  totals_ok acc -> add_item acc item = Ok acc' -> totals_ok acc'.
Proof.
  destruct acc as [score total]. intros [Hlow Hhigh]. unfold add_item.
  destruct (foldM (add_field item) 0 required_fields) as [r |] eqn:Hr;
    [| discriminate]. simpl. intros [= <-].
  apply add_fields_range in Hr as [Hr0 Hr3]. rewrite Qcplus_0_l in Hr3.
  assert (Hunit : 0 <= r / Qc_of_nat (length required_fields) /\
                  r / Qc_of_nat (length required_fields) <= 1).
  { apply Qcdiv_unit; [exact Hr0 | exact Hr3 |]. apply Qc_of_nat_pos.
    simpl. lia. }
  destruct Hunit as [Hu0 Hu1]. unfold totals_ok. simpl in *. split.
  - apply Qcplus_nonneg_nonneg; assumption.
  - rewrite (Qc_of_nat_S total). apply Qcplus_le_compat; assumption.
Qed.

Lemma add_category_totals (actual expected : value) (acc : Qc * nat)
  (category : string) (acc' : Qc * nat) :
  totals_ok acc -> add_category actual expected acc category = Ok acc' ->
  totals_ok acc'.
Proof.
  intros Hacc. unfold add_category.
  destruct (get actual category (VList [])) as [items_v |]; [| discriminate].
  simpl. destruct (get expected category (VList [])); [| discriminate].
  simpl. destruct (iter items_v) as [items |]; [| discriminate]. simpl.
  apply (foldM_invariant totals_ok add_item items add_item_totals acc acc' Hacc).
Qed.

(** X6.  Whenever the completeness metric returns a score, the score lies in
    [[0,1]]. *)
Theorem completeness_score_in_unit_interval (input : string)
  (actual expected : value) (score : Qc) :
  evaluate input actual expected = Ok score -> 0 <= score /\ score <= 1.
Proof.
  unfold evaluate. destruct (truthy expected); cbv beta iota delta [negb];
    [| intros [= <-]; apply zero_unit].
  destruct (foldM (add_category actual expected) (0, O)
              ["work_requests"; "work_orders"; "tasks"])
    as [[total_score total_items] |] eqn:Hfold; [| simpl; discriminate].
  simpl. intros Hscore.
  apply (f_equal (fun r => match r with Ok q => q | Raise _ => 0 end)) in Hscore.
  simpl in Hscore. subst score.
  assert (Hok : totals_ok (total_score, total_items)).
  { apply (foldM_invariant totals_ok (add_category actual expected)
             ["work_requests"; "work_orders"; "tasks"]
             (add_category_totals actual expected) (0, O));
      [| exact Hfold].
    split; simpl; [apply Qcle_refl | rewrite Qc_of_nat_0; apply Qcle_refl]. }
  destruct Hok as [Hlow Hhigh]. simpl in *.
  destruct total_items as [| n]; [apply zero_unit |].
  simpl Nat.ltb. cbn iota.
  apply Qcdiv_unit; [exact Hlow | exact Hhigh |].
  apply Qc_of_nat_pos. lia.
Qed.

Lemma completeness_score_in_unit_interval_witness :
  evaluate "" (VDict [("tasks", some_item)]) (VDict [("tasks", VList [])])
  = Ok (Q2Qc (1 # 3))
  /\ 0 <= Q2Qc (1 # 3) /\ Q2Qc (1 # 3) <= 1.
Proof.
  assert (H : evaluate "" (VDict [("tasks", some_item)])
                (VDict [("tasks", VList [])]) = Ok (Q2Qc (1 # 3)))
    by (vm_compute; reflexivity).
  split; [exact H |].
  exact (completeness_score_in_unit_interval _ _ _ _ H).
Defined.

(** X7.  The completeness metric reads the expected output only to see that
    it is not empty: any two non-empty expected mappings give the same
    result. *)
Theorem completeness_ignores_expected (input : string) (actual : value)
  (expected1 expected2 : dict) :
  truthy (VDict expected1) = true -> truthy (VDict expected2) = true ->
  evaluate input actual (VDict expected1)
  = evaluate input actual (VDict expected2).
Proof.
  intros H1 H2. unfold evaluate. rewrite H1, H2.
  cbv beta iota delta [negb].
  rewrite (foldM_ext (add_category actual (VDict expected1))
             (add_category actual (VDict expected2))); [reflexivity |].
  intros acc category. unfold add_category.
  destruct (get actual category (VList [])); reflexivity.
Qed.

Lemma completeness_ignores_expected_witness :
  evaluate "" (VDict [("tasks", some_item)]) (VDict [("tasks", VList [])])
  = evaluate "" (VDict [("tasks", some_item)])
      (VDict [("work_orders", some_item); ("tasks", some_item)]).
Proof.
  apply completeness_ignores_expected; reflexivity.
Defined.

Lemma add_field_dict (item : dict) (acc : Qc) (field : string) :
  add_field (VDict item) acc field
  = Ok (if field_truthy item field then acc + 1 else acc).
Proof.
  unfold add_field, field_truthy. simpl.
  destruct (lookup_key field item) as [v |]; simpl; [| reflexivity].
  destruct (truthy v); reflexivity.
Qed.

Lemma add_fields_dict (item : dict) (fields : list string) (acc : Qc) :
  foldM (add_field (VDict item)) acc fields
  = Ok (acc + Qc_of_nat (length (List.filter (field_truthy item) fields))).
Proof.
  revert acc. induction fields as [| field fields IH]; intros acc.
  - simpl. rewrite Qc_of_nat_0, Qcplus_0_r. reflexivity.
  - cbn [foldM List.filter]. rewrite add_field_dict.
    change (Ok ?a ≫= ?f) with (f a). cbv beta. rewrite IH.
    destruct (field_truthy item field); [| reflexivity].
    f_equal. cbn [length]. rewrite Qc_of_nat_S. ring.
Qed.

Lemma add_item_dict (item : dict) (total_score : Qc) (total_items : nat) :
  add_item (total_score, total_items) (VDict item)
  = Ok (total_score + item_score item, S total_items).
Proof.
  unfold add_item. rewrite add_fields_dict. simpl.
  rewrite Qcplus_0_l. reflexivity.
Qed.

Lemma add_items_dicts (items : list dict) (total_score : Qc) (total_items : nat) :
  foldM add_item (total_score, total_items) (map VDict items)
  = Ok (fold_left Qcplus (map item_score items) total_score,
        (total_items + length items)%nat).
Proof.
  revert total_score total_items.
  induction items as [| item items IH]; intros total_score total_items.
  - simpl. rewrite Nat.add_0_r. reflexivity.
  - cbn [map foldM]. rewrite add_item_dict.
    change (Ok ?a ≫= ?f) with (f a). cbv beta. rewrite IH.
    cbn [map fold_left length]. f_equal. f_equal. lia.
Qed.

Lemma as_dicts_map (l : list value) (items : list dict) :
  as_dicts l = Some items -> l = map VDict items.
Proof.
  revert items. induction l as [| v l IH]; intros items H.
  - injection H as <-. reflexivity.
  - destruct v; try discriminate H. simpl in H.
    destruct (as_dicts l) as [items' |]; [| discriminate H].
    injection H as <-. simpl. f_equal. apply IH. reflexivity.
Qed.

Lemma add_category_dicts (output expected : dict) (category : string)
  (items : list dict) (total_score : Qc) (total_items : nat) :
  category_items output category = Some items ->
  add_category (VDict output) (VDict expected) (total_score, total_items)
    category
  = Ok (fold_left Qcplus (map item_score items) total_score,
        (total_items + length items)%nat).
Proof.
  unfold category_items, add_category. simpl.
  destruct (lookup_key category output) as [v |]; simpl.
  - destruct v; try discriminate. intros H. apply as_dicts_map in H.
    subst l. apply add_items_dicts.
  - intros [= <-]. simpl. rewrite Nat.add_0_r. reflexivity.
Qed.

Lemma mean_item_score_ltb (items : list dict) :
  mean_item_score items
  = if Nat.ltb 0 (length items)
    then fold_left Qcplus (map item_score items) 0 / Qc_of_nat (length items)
    else 0.
Proof. destruct items; reflexivity. Qed.

Lemma completeness_mean (input : string)
  (output expected : dict) (items : list dict) :
  truthy (VDict expected) = true ->
  all_items output = Some items ->
  evaluate input (VDict output) (VDict expected) = Ok (mean_item_score items).
Proof.
  intros Hexp Hall. unfold evaluate. rewrite Hexp.
  cbv beta iota delta [negb]. cbn [foldM].
  unfold all_items in Hall.
  destruct (category_items output "work_requests") as [wr |] eqn:Hwr;
    [| discriminate].
  destruct (category_items output "work_orders") as [wo |] eqn:Hwo;
    [| discriminate].
  destruct (category_items output "tasks") as [ts |] eqn:Hts;
    [| discriminate].
  injection Hall as <-.
  rewrite (add_category_dicts output expected _ wr 0 O Hwr). simpl.
  rewrite (add_category_dicts output expected _ wo _ _ Hwo). simpl.
  rewrite (add_category_dicts output expected _ ts _ _ Hts). simpl.
  rewrite mean_item_score_ltb.
  rewrite !map_app, !fold_left_app, !length_app, Nat.add_assoc.
  reflexivity.
Qed.

(** X8.  On an output whose three categories are absent or lists of
    mappings, with a non-empty expected mapping, the completeness score is
    the mean over all the items of the share of title, description and
    status that the item has with a truthy value; it is 0 when there is no
    item. *)
Theorem completeness_is_mean_item_score (input : string)
  (output expected : dict) (items : list dict) :
  truthy (VDict expected) = true ->
  all_items output = Some items ->
  evaluate input (VDict output) (VDict expected) = Ok (mean_item_score items).
Proof. exact (completeness_mean input output expected items). Qed.

Lemma completeness_is_mean_item_score_witness :
  evaluate "replaced the belt"
    (VDict [("tasks", VList [VDict [("title", VStr "belt");
                                    ("description", VStr "");
                                    ("status", VStr "done")]])])
    (VDict [("tasks", VList [])])
  = Ok (Q2Qc (2 # 3)).
Proof.
  etransitivity.
  - apply (completeness_is_mean_item_score "replaced the belt"
             [("tasks", VList [VDict [("title", VStr "belt");
                                      ("description", VStr "");
                                      ("status", VStr "done")]])]
             [("tasks", VList [])]
             [[("title", VStr "belt"); ("description", VStr "");
               ("status", VStr "done")]]); reflexivity.
  - apply (f_equal Ok). apply Qc_is_canon. vm_compute. reflexivity.
Defined.

End Completeness.

(* ===================================================================== *)
(** * The metric sets of the workflows *)
(* ===================================================================== *)

Section Aggregate.
Import EvaluationFramework.

Lemma sum_bounds (lo hi : Qc) (l : list Qc) :
  Forall (fun s => lo <= s /\ s <= hi) l ->
  Qc_of_nat (length l) * lo <= fold_right Qcplus 0 l /\
  fold_right Qcplus 0 l <= Qc_of_nat (length l) * hi.
Proof.
  induction 1 as [| s l [Hlo Hhi] _ [IHlo IHhi]].
  - simpl. rewrite Qc_of_nat_0, !Qcmult_0_l. split; apply Qcle_refl.
  - cbn [length fold_right]. rewrite Qc_of_nat_S.
    replace ((Qc_of_nat (length l) + 1) * lo)
      with (lo + Qc_of_nat (length l) * lo) by ring.
    replace ((Qc_of_nat (length l) + 1) * hi)
      with (hi + Qc_of_nat (length l) * hi) by ring.
    split; apply Qcplus_le_compat; assumption.
Qed.

Lemma aggregate_bounds (lo hi : Qc) (scores : score_map) :
  scores <> [] ->
  Forall (fun s => lo <= s /\ s <= hi) (map snd scores) ->
  lo <= get_aggregate_score scores /\ get_aggregate_score scores <= hi.
Proof.
  intros Hne Hall. destruct scores as [| entry scores]; [congruence |].
  unfold get_aggregate_score.
  destruct (sum_bounds lo hi _ Hall) as [Hlo Hhi].
  rewrite length_map in Hlo, Hhi.
  assert (Hpos : 0 < Qc_of_nat (length (entry :: scores)))
    by (apply Qc_of_nat_pos; simpl; lia).
  split.
  - apply Qcdiv_ge; [exact Hpos |]. rewrite Qcmult_comm. exact Hlo.
  - apply Qcdiv_le; [exact Hpos |]. rewrite Qcmult_comm. exact Hhi.
Qed.



End Aggregate.

Section MetricSets.
Import EvaluationFramework.
Variable model_validate : value -> result value.

Lemma schema_score_unit (input : string) (actual expected : value) :
  0 <= recorded_score (schema_validity_metric model_validate)
         input actual expected
  /\ recorded_score (schema_validity_metric model_validate)
       input actual expected <= 1.
Proof.
  unfold recorded_score, schema_validity_metric, metric_evaluate,
    SchemaValidityMetric.evaluate.
  destruct (model_validate actual) as [v | []];
    first [apply one_unit | apply zero_unit].
Qed.

Lemma category_score_unit (input : string) (actual expected : value) :
  0 <= recorded_score category_classification_metric input actual expected
  /\ recorded_score category_classification_metric input actual expected <= 1.
Proof.
  unfold recorded_score, category_classification_metric, metric_evaluate.
  destruct (CategoryClassificationMetric.evaluate input actual expected)
    as [score |] eqn:Hscore; [| apply zero_unit].
  exact (category_evaluate_unit _ _ _ _ Hscore).
Qed.

Lemma asset_score_unit (input : string) (actual expected : value) :
  0 <= recorded_score asset_identification_metric input actual expected
  /\ recorded_score asset_identification_metric input actual expected <= 1.
Proof.
  unfold recorded_score, asset_identification_metric, metric_evaluate.
  destruct (AssetIdentificationMetric.evaluate input actual expected)
    as [score |] eqn:Hscore; [| apply zero_unit].
  exact (asset_evaluate_unit _ _ _ _ Hscore).
Qed.

Lemma primary_scores_eq (input : string) (actual expected : value) :
  evaluate (PrimaryWorkflow._setup_evaluation model_validate)
    input actual expected
  = [("schema_validity",
      recorded_score (schema_validity_metric model_validate)
        input actual expected);
     ("category_classification_accuracy",
      recorded_score category_classification_metric input actual expected);
     ("asset_identification_accuracy",
      recorded_score asset_identification_metric input actual expected)].
Proof.
  unfold evaluate, PrimaryWorkflow._setup_evaluation.
  cbv zeta. unfold add_metric, init.
  cbn [dict_set metric_name schema_validity_metric
       category_classification_metric asset_identification_metric
       SchemaValidityMetric.name CategoryClassificationMetric.name
       AssetIdentificationMetric.name String.eqb Ascii.eqb Bool.eqb].
  cbn [fold_left]. rewrite !evaluate_step_set. reflexivity.
Qed.


(** X10.  The primary workflow scores every output, whatever it is, under
    exactly its three metric names, in the order of registration; each
    score lies in [[0,1]], and so does their aggregate. *)
Theorem primary_scores_in_unit_interval (input : string)
  (actual expected : value) :
  let scores :=
    evaluate (PrimaryWorkflow._setup_evaluation model_validate)
      input actual expected in
  map fst scores = ["schema_validity"; "category_classification_accuracy";
                    "asset_identification_accuracy"] /\
  Forall (fun s => 0 <= s /\ s <= 1) (map snd scores) /\
  0 <= get_aggregate_score scores /\ get_aggregate_score scores <= 1.
Proof.
  set (scores := evaluate _ _ _ _). cbv zeta.
  assert (Hscores : scores = _)
    by (subst scores; apply primary_scores_eq).
  assert (Hall : Forall (fun s => 0 <= s /\ s <= 1) (map snd scores)).
  { rewrite Hscores. cbn [map snd].
    repeat constructor;
      first [apply schema_score_unit | apply category_score_unit
            | apply asset_score_unit]. }
  split; [rewrite Hscores; reflexivity |].
  split; [exact Hall |].
  apply aggregate_bounds; [rewrite Hscores; discriminate | exact Hall].
Qed.

End MetricSets.

Section Registration.
Import EvaluationFramework.

Lemma evaluate_lookup (self : t) (input : string) (actual expected : value)
  (name : string) :
  NoDup (map fst self) ->
  lookup_key name (evaluate self input actual expected)
  = option_map (fun metric => recorded_score metric input actual expected)
      (lookup_key name self).
Proof.
  intros Hnodup. unfold evaluate.
  rewrite (evaluate_fold_lookup input actual expected self Hnodup [] name).
  destruct (lookup_key name self); reflexivity.
Qed.

Lemma evaluate_keys (self : t) (input : string) (actual expected : value) :
  NoDup (map fst self) ->
  map fst (evaluate self input actual expected) = map fst self.
Proof.
  intros Hnodup. unfold evaluate.
  apply (evaluate_fold_keys input actual expected self []). exact Hnodup.
Qed.

(** X11.  Registering a metric under a name that is already registered
    replaces the earlier metric in place: the score map keeps its names and
    their order, the name now carries the score of the new metric, and the
    scores under the other names are unchanged. *)
Theorem add_metric_replaces_same_name (self : t) (metric : BaseMetric)
  (input : string) (actual expected : value) :
  NoDup (map fst self) ->
  metric_name metric ∈ map fst self ->
  let before := evaluate self input actual expected in
  let after := evaluate (add_metric self metric) input actual expected in
  map fst after = map fst before /\
  lookup_key (metric_name metric) after
  = Some (recorded_score metric input actual expected) /\
  forall name, name <> metric_name metric ->
    lookup_key name after = lookup_key name before.
Proof.
  intros Hnodup Hin. cbv zeta.
  pose proof (add_metric_NoDup self metric Hnodup) as Hnodup'.
  rewrite !evaluate_keys, !evaluate_lookup by assumption.
  unfold add_metric. split; [apply keys_dict_set_old, Hin |].
  split.
  - rewrite lookup_dict_set_eq. reflexivity.
  - intros name Hname. rewrite !evaluate_lookup by assumption.
    rewrite lookup_dict_set_ne by congruence. reflexivity.
Qed.

Lemma add_metric_replaces_same_name_witness :
  let strict : BaseMetric :=
    {| metric_name := AssetIdentificationMetric.name;
       metric_evaluate := fun _ _ _ => Ok 0 |} in
  let before := evaluate category_and_asset "all fine" untagged_task VNone in
  let after :=
    evaluate (add_metric category_and_asset strict) "all fine" untagged_task
      VNone in
  map fst after = map fst before /\
  lookup_key AssetIdentificationMetric.name after = Some 0 /\
  forall name, name <> AssetIdentificationMetric.name ->
    lookup_key name after = lookup_key name before.
Proof.
  cbv zeta.
  apply (add_metric_replaces_same_name category_and_asset
           {| metric_name := AssetIdentificationMetric.name;
              metric_evaluate := fun _ _ _ => Ok 0 |}
           "all fine" untagged_task VNone).
  - repeat constructor; set_solver.
  - set_solver.
Defined.

End Registration.

Section SecondaryMetricSet.
Import EvaluationFramework.
Variable model_validate : value -> result value.

Lemma secondary_scores_eq (input : string) (actual expected : value) :
  evaluate (SecondaryWorkflow._setup_evaluation model_validate)
    input actual expected
  = [("schema_validity",
      recorded_score (schema_validity_metric model_validate)
        input actual expected);
     ("downtime_extraction_accuracy",
      recorded_score downtime_extraction_metric input actual expected);
     ("completeness_score",
      recorded_score completeness_metric input actual expected)].
Proof.
  unfold evaluate, SecondaryWorkflow._setup_evaluation.
  cbv zeta. unfold add_metric, init.
  cbn [dict_set metric_name schema_validity_metric
       downtime_extraction_metric completeness_metric
       SchemaValidityMetric.name DowntimeExtractionMetric.name
       CompletenessMetric.name String.eqb Ascii.eqb Bool.eqb].
  cbn [fold_left]. rewrite !evaluate_step_set. reflexivity.
Qed.

Lemma completeness_without_categories (input : string) (output : dict)
  (expected : value) :
  lookup_key "work_requests" output = None ->
  lookup_key "work_orders" output = None ->
  lookup_key "tasks" output = None ->
  recorded_score completeness_metric input (VDict output) expected = 0.
Proof.
  intros Hwr Hwo Hts.
  unfold recorded_score, completeness_metric, metric_evaluate.
  destruct (truthy expected) eqn:Hexp.
  - destruct expected as [| b | z | q | s | l | d];
      try discriminate Hexp;
      try (unfold CompletenessMetric.evaluate; rewrite Hexp;
           cbv beta iota delta [negb]; cbn [foldM];
           unfold CompletenessMetric.add_category at 1;
           rewrite get_dict; reflexivity).
    rewrite (completeness_mean input output d [] Hexp); [reflexivity |].
    unfold all_items, category_items. rewrite Hwr, Hwo, Hts. reflexivity.
  - unfold CompletenessMetric.evaluate. rewrite Hexp. reflexivity.
Qed.

(** X25.  In the metric set of the secondary workflow the completeness
    score of an output that has none of the entries "work_requests",
    "work_orders" and "tasks" is 0, whatever the input and the expected
    output are: the metric counts the items of these three entries only. *)
Theorem secondary_completeness_is_zero (input : string) (output : dict)
  (expected : value) :
  lookup_key "work_requests" output = None ->
  lookup_key "work_orders" output = None ->
  lookup_key "tasks" output = None ->
  lookup_key "completeness_score"
    (evaluate (SecondaryWorkflow._setup_evaluation model_validate)
       input (VDict output) expected)
  = Some 0.
Proof.
  intros Hwr Hwo Hts. rewrite secondary_scores_eq.
  rewrite (completeness_without_categories input output expected Hwr Hwo Hts).
  reflexivity.
Qed.

End SecondaryMetricSet.

Section SecondaryMetricSetInstance.

Lemma secondary_completeness_is_zero_witness :
  lookup_key "completeness_score"
    (EvaluationFramework.evaluate
       (SecondaryWorkflow._setup_evaluation accept_all)
       "replaced the belt, 2 hours down"
       (VDict [("work_summary", VStr "belt replaced");
               ("equipment_downtime", VInt 2);
               ("completion_status", VStr "done")])
       (VDict [("work_summary", VStr "belt replaced");
               ("equipment_downtime", VInt 2);
               ("completion_status", VStr "done")]))
  = Some 0.
Proof.
  apply (secondary_completeness_is_zero accept_all
           "replaced the belt, 2 hours down"
           [("work_summary", VStr "belt replaced");
            ("equipment_downtime", VInt 2);
            ("completion_status", VStr "done")]);
    reflexivity.
Defined.

End SecondaryMetricSetInstance.

(* ===================================================================== *)
(** * Traces of the step graph *)
(* ===================================================================== *)

Section DictKeys.
Context {V : Type}.
Implicit Types (d : list (string * V)) (k : string) (v : V).

Lemma elem_of_keys_dict_set d k k' v :
  k' ∈ map fst (dict_set k v d) <-> k' = k \/ k' ∈ map fst d.
Proof.
  induction d as [| [k0 v0] d IH]; simpl.
  - set_solver.
  - destruct (String.eqb k k0) eqn:E.
    + apply String.eqb_eq in E. subst k0. simpl. set_solver.
    + simpl. set_solver.
Qed.

End DictKeys.

Section StepTrace.
Context {World : Type}.
Variable agents : list (string * value).
Variable chain_invoke : value -> string -> M World value.
Variable model_validate : value -> result value.

Local Notation run_node :=
  (GraphBuilder.run_node agents chain_invoke model_validate).
Local Notation invoke :=
  (GraphBuilder.invoke agents chain_invoke model_validate).

Lemma run_node_frame (n : node) (state : BaseState) (w : World) :
  exists state' w' new_errors,
    run_node n state w = (Ok state', w') /\
    input_data state' = input_data state /\
    metadata state' = metadata state /\
    errors state' = (errors state ++ new_errors)%list /\
    (length new_errors <= 1)%nat.
Proof.
  destruct n as [agent_name |]; simpl.
  - unfold GraphBuilder.agent_node.
    destruct (GraphBuilder.agent_call agents chain_invoke agent_name state w)
      as [[result | e] w'].
    + eexists _, w', []. rewrite app_nil_r. simpl. repeat split; lia.
    + eexists _, w', [_]. simpl. repeat split; lia.
  - unfold GraphBuilder._validate_output_node.
    destruct (truthy (output_data state)).
    + destruct (model_validate (output_data state)) as [validated | e].
      * eexists _, w, []. rewrite app_nil_r. simpl. repeat split; lia.
      * eexists _, w, [_]. simpl. repeat split; lia.
    + eexists _, w, []. rewrite app_nil_r. simpl. repeat split; lia.
Qed.

(** X12.  A run of the step graph always ends with a state: it keeps the
    input text and the metadata, and it only appends to the error list, at
    most one message for each step. *)
Theorem invoke_only_appends_errors (g : CompiledGraph) (state : BaseState)
  (w : World) :
  exists state' w' new_errors,
    invoke g state w = (Ok state', w') /\
    input_data state' = input_data state /\
    metadata state' = metadata state /\
    errors state' = (errors state ++ new_errors)%list /\
    (length new_errors <= length g)%nat.
Proof.
  revert state w. induction g as [| n g IH]; intros state w.
  - exists state, w, []. rewrite app_nil_r. simpl. repeat split; lia.
  - destruct (run_node_frame n state w)
      as (state1 & w1 & errs1 & Hrun & Hin1 & Hmeta1 & Herr1 & Hlen1).
    destruct (IH state1 w1)
      as (state' & w' & errs & Hinv & Hin & Hmeta & Herr & Hlen).
    exists state', w', (errs1 ++ errs)%list.
    cbn [GraphBuilder.invoke]. unfold mbind. rewrite Hrun.
    split; [exact Hinv |].
    split; [congruence |]. split; [congruence |].
    split; [rewrite Herr, Herr1, app_assoc; reflexivity |].
    rewrite length_app. simpl. lia.
Qed.

Lemma run_node_keys (n : node) (state : BaseState) (w : World) :
  exists state' w',
    run_node n state w = (Ok state', w') /\
    (forall k, k ∈ map fst (step_results state') ->
       k = node_name n \/ k ∈ map fst (step_results state)) /\
    (forall k, k ∈ map fst (step_results state) ->
       k ∈ map fst (step_results state')) /\
    (n = ValidateOutputNode ->
     "validate_output" ∈ map fst (step_results state')).
Proof.
  destruct n as [agent_name |]; simpl.
  - unfold GraphBuilder.agent_node.
    destruct (GraphBuilder.agent_call agents chain_invoke agent_name state w)
      as [[result | e] w']; eexists _, w'; (split; [reflexivity |]); simpl.
    + split; [| split]; [| | discriminate]; intros k;
        rewrite elem_of_keys_dict_set; tauto.
    + split; [| split]; [| | discriminate]; tauto.
  - unfold GraphBuilder._validate_output_node.
    destruct (truthy (output_data state));
      [destruct (model_validate (output_data state)) |];
      eexists _, w; (split; [reflexivity |]); simpl;
      (split; [| split; [| intros _]]); try intros k;
      rewrite elem_of_keys_dict_set; tauto.
Qed.

(** X13.  After a run of the step graph the step results are filed under
    the names they had before and under names of steps of the graph only;
    no entry is ever removed, and a graph with the validation step leaves
    an entry "validate_output". *)
Theorem invoke_step_results_names (g : CompiledGraph) (state : BaseState)
  (w : World) :
  exists state' w',
    invoke g state w = (Ok state', w') /\
    (forall k, k ∈ map fst (step_results state') ->
       k ∈ map node_name g \/ k ∈ map fst (step_results state)) /\
    (forall k, k ∈ map fst (step_results state) ->
       k ∈ map fst (step_results state')) /\
    (ValidateOutputNode ∈ g ->
     "validate_output" ∈ map fst (step_results state')).
Proof.
  revert state w. induction g as [| n g IH]; intros state w.
  - exists state, w. simpl. split; [reflexivity |].
    split; [tauto |]. split; [tauto |]. intros H. inversion H.
  - destruct (run_node_keys n state w)
      as (state1 & w1 & Hrun & Hnew1 & Hold1 & Hval1).
    destruct (IH state1 w1) as (state' & w' & Hinv & Hnew & Hold & Hval).
    exists state', w'. cbn [GraphBuilder.invoke]. unfold mbind. rewrite Hrun.
    split; [exact Hinv |]. split; [| split].
    + intros k Hk. cbn [map]. rewrite elem_of_cons.
      destruct (Hnew k Hk) as [Hk' | Hk']; [tauto |].
      destruct (Hnew1 k Hk'); tauto.
    + intros k Hk. apply Hold, Hold1, Hk.
    + intros Hin. apply elem_of_cons in Hin as [<- | Hin].
      * apply Hold, Hval1. reflexivity.
      * apply Hval, Hin.
Qed.

End StepTrace.

Section SchemaIndependence.
Context {World : Type}.
Variable agents : list (string * value).
Variable chain_invoke : value -> string -> M World value.
Variable StateGraph : Type.
Variable new_StateGraph : StateGraph.
Variable add_node : StateGraph -> string -> node -> result StateGraph.
Variable set_entry_point : StateGraph -> string -> result StateGraph.
Variable add_edge : StateGraph -> string -> string -> result StateGraph.
Variable END : string.
Variable compile : StateGraph -> result CompiledGraph.

(** Two schemas, that may disagree on every output. *)
Variable model_validate1 model_validate2 : value -> result value.

Lemma run_node_same_output (n : node) (state1 state2 : BaseState) (w : World) :
  input_data state1 = input_data state2 ->
  output_data state1 = output_data state2 ->
  exists state1' state2' w',
    GraphBuilder.run_node agents chain_invoke model_validate1 n state1 w
    = (Ok state1', w') /\
    GraphBuilder.run_node agents chain_invoke model_validate2 n state2 w
    = (Ok state2', w') /\
    input_data state1' = input_data state2' /\
    output_data state1' = output_data state2'.
Proof.
  intros Hin Hout. destruct n as [agent_name |]; simpl.
  - unfold GraphBuilder.agent_node.
    assert (Hcall :
      GraphBuilder.agent_call agents chain_invoke agent_name state1 w
      = GraphBuilder.agent_call agents chain_invoke agent_name state2 w).
    { unfold GraphBuilder.agent_call. rewrite Hin. reflexivity. }
    rewrite Hcall.
    destruct (GraphBuilder.agent_call agents chain_invoke agent_name state2 w)
      as [[result | e] w']; eexists _, _, w'; simpl; auto.
  - unfold GraphBuilder._validate_output_node. rewrite Hout.
    destruct (truthy (output_data state2)).
    + destruct (model_validate1 (output_data state2)),
               (model_validate2 (output_data state2));
        eexists _, _, w; simpl; auto.
    + eexists _, _, w; simpl; auto.
Qed.

Lemma invoke_same_output (g : CompiledGraph) :
  forall (state1 state2 : BaseState) (w : World),
    input_data state1 = input_data state2 ->
    output_data state1 = output_data state2 ->
    exists state1' state2' w',
      GraphBuilder.invoke agents chain_invoke model_validate1 g state1 w
      = (Ok state1', w') /\
      GraphBuilder.invoke agents chain_invoke model_validate2 g state2 w
      = (Ok state2', w') /\
      output_data state1' = output_data state2'.
Proof.
  induction g as [| n g IH]; intros state1 state2 w Hin Hout.
  - exists state1, state2, w. auto.
  - destruct (run_node_same_output n state1 state2 w Hin Hout)
      as (s1 & s2 & w1 & Hrun1 & Hrun2 & Hin' & Hout').
    destruct (IH s1 s2 w1 Hin' Hout') as (s1' & s2' & w' & H1 & H2 & Hfinal).
    exists s1', s2', w'. cbn [GraphBuilder.invoke]. unfold mbind.
    rewrite Hrun1, Hrun2. auto.
Qed.

(** X26.  The schema check never changes what [process_input] returns:
    with a compiled graph, the primary workflow returns the same output and
    leaves the same world whether the schema accepts the outputs or rejects
    them. *)
Theorem schema_check_never_changes_output (g : CompiledGraph)
  (cfg : GraphConfig) (input : string) (w : World) :
  let self := {| GraphBuilder.graph := Some g;
                 GraphBuilder.graph_config := cfg |} in
  PrimaryWorkflow.process_input agents chain_invoke model_validate1 StateGraph
    new_StateGraph add_node set_entry_point add_edge END compile input
    (self, w)
  = PrimaryWorkflow.process_input agents chain_invoke model_validate2
      StateGraph new_StateGraph add_node set_entry_point add_edge END compile
      input (self, w).
Proof.
  cbv zeta. unfold PrimaryWorkflow.process_input, GraphBuilder.execute.
  cbn [GraphBuilder.graph GraphBuilder.graph_config].
  destruct (invoke_same_output g (GraphBuilder.initial_state input)
              (GraphBuilder.initial_state input) w eq_refl eq_refl)
    as (state1 & state2 & w' & H1 & H2 & Hout).
  rewrite H1, H2, Hout. reflexivity.
Qed.

End SchemaIndependence.

(* ===================================================================== *)
(** * Sessions of the primary workflow *)
(* ===================================================================== *)

Section PrimaryRun.
Context {World : Type}.
Variable agents : list (string * value).
Variable chain_invoke : value -> string -> M World value.
Variable model_validate : value -> result value.
Variable StateGraph : Type.
Variable new_StateGraph : StateGraph.
Variable add_node : StateGraph -> string -> node -> result StateGraph.
Variable set_entry_point : StateGraph -> string -> result StateGraph.
Variable add_edge : StateGraph -> string -> string -> result StateGraph.
Variable END : string.
Variable compile : StateGraph -> result CompiledGraph.
Variable time : World -> Qc * World.

Local Notation build_graph :=
  (GraphBuilder.build_graph StateGraph new_StateGraph add_node
     set_entry_point add_edge END compile).
Local Notation process_input :=
  (PrimaryWorkflow.process_input agents chain_invoke model_validate StateGraph
     new_StateGraph add_node set_entry_point add_edge END compile).
Local Notation evaluate_output :=
  (PrimaryWorkflow.evaluate_output (World := World) model_validate).
Local Notation evaluate_item :=
  (BaseWorkflow.evaluate_item process_input evaluate_output (lift_time time)).
Local Notation run_loop :=
  (BaseWorkflow.run_loop process_input evaluate_output (lift_time time)).
Local Notation run_evaluation :=
  (PrimaryWorkflow.run_evaluation agents chain_invoke model_validate StateGraph
     new_StateGraph add_node set_entry_point add_edge END compile time).





Lemma process_input_unbuilt (cfg : GraphConfig) (e : exn) (input : string)
  (w : World) :
  let self := {| GraphBuilder.graph := None;
                 GraphBuilder.graph_config := cfg |} in
  build_graph self = Raise e ->
  process_input input (self, w) = (Raise e, (self, w)).
Proof.
  cbv zeta. intros Hbuild.
  unfold PrimaryWorkflow.process_input, GraphBuilder.execute.
  cbn [GraphBuilder.graph]. rewrite Hbuild. reflexivity.
Qed.

Lemma evaluate_item_unbuilt (cfg : GraphConfig) (e : exn) (item : value)
  (w : World) :
  let self := {| GraphBuilder.graph := None;
                 GraphBuilder.graph_config := cfg |} in
  build_graph self = Raise e ->
  well_formed_item item ->
  exists r w',
    evaluate_item item (self, w) = (Ok r, (self, w')) /\
    success r = false /\ result_errors r = [str_exn e] /\
    actual_output r = VNone /\ metrics r = [].
Proof.
  cbv zeta. intros Hbuild [input Hinput].
  unfold BaseWorkflow.evaluate_item, lift_time.
  destruct (time w) as [start_time w0]. rewrite Hinput.
  unfold BaseWorkflow.try_item.
  rewrite (process_input_unbuilt cfg e input w0 Hbuild).
  destruct (time w0) as [end_time w1].
  eexists _, w1. split; [reflexivity |]. simpl. repeat split.
Qed.

Lemma run_loop_unbuilt (cfg : GraphConfig) (e : exn) (dataset : list value) :
  let self := {| GraphBuilder.graph := None;
                 GraphBuilder.graph_config := cfg |} in
  build_graph self = Raise e ->
  Forall well_formed_item dataset ->
  forall acc w, exists results w',
    run_loop dataset acc (self, w) = (Ok (acc ++ results)%list, (self, w')) /\
    length results = length dataset /\
    Forall (fun r => success r = false /\ result_errors r = [str_exn e] /\
                     actual_output r = VNone /\ metrics r = []) results.
Proof.
  cbv zeta. intros Hbuild.
  induction 1 as [| item dataset Hitem _ IH]; intros acc w.
  - exists [], w. rewrite app_nil_r. repeat split. constructor.
  - destruct (evaluate_item_unbuilt cfg e item w Hbuild Hitem)
      as (r & w1 & Hr & Hprops).
    destruct (IH (acc ++ [r])%list w1) as (results & w' & Hrun & Hlen & Hall).
    exists (r :: results), w'.
    cbn [BaseWorkflow.run_loop]. unfold mbind at 1. rewrite Hr, Hrun.
    rewrite <- app_assoc. split; [reflexivity |].
    split; [simpl; lia |]. constructor; assumption.
Qed.

(** X15.  When the graph does not compile, the primary workflow still
    returns one result for each item of a dataset with string inputs: every
    item is tried, compilation is attempted again for each of them, and
    every result is a failure with the message of the compilation error as
    its only error, no output and no score. *)
Theorem build_failure_fails_every_item (cfg : GraphConfig) (e : exn)
  (dataset : list value) (w : World) :
  let self := {| GraphBuilder.graph := None;
                 GraphBuilder.graph_config := cfg |} in
  build_graph self = Raise e ->
  Forall well_formed_item dataset ->
  exists results w',
    run_evaluation dataset (self, w) = (Ok results, (self, w')) /\
    length results = length dataset /\
    Forall (fun r => success r = false /\ result_errors r = [str_exn e] /\
                     actual_output r = VNone /\ metrics r = []) results.
Proof.
  cbv zeta. intros Hbuild Hwf.
  exact (run_loop_unbuilt cfg e dataset Hbuild Hwf [] w).
Qed.

End PrimaryRun.

Section PrimaryRunInstances.


Lemma build_failure_fails_every_item_witness :
  exists results w',
    PrimaryWorkflow.run_evaluation extract_agents failing_backend accept_all
      (list node) [] listing_add_node listing_set_entry_point
      listing_add_edge langgraph_END rejecting_compile still_clock two_reports
      (no_start_builder, ())
    = (Ok results, (no_start_builder, w')) /\
    length results = length two_reports /\
    Forall (fun r => success r = false /\
                     result_errors r = ["Graph must have an entrypoint"] /\
                     actual_output r = VNone /\ metrics r = []) results.
Proof.
  apply (build_failure_fails_every_item extract_agents failing_backend
           accept_all (list node) [] listing_add_node listing_set_entry_point
           listing_add_edge langgraph_END rejecting_compile still_clock
           (GraphBuilder.graph_config no_start_builder)
           (OtherException "Graph must have an entrypoint") two_reports ()).
  - reflexivity.
  - repeat constructor; eexists; reflexivity.
Defined.

End PrimaryRunInstances.

(* ===================================================================== *)
(** * The runner and the tester *)
(* ===================================================================== *)

Section RunnerLoop.
Context {World : Type}.
Variable process_input : string -> M World value.
Variable evaluate_output : string -> value -> value -> M World score_map.
Variable time : World -> Qc * World.

Local Notation evaluate_item :=
  (BaseWorkflow.evaluate_item process_input evaluate_output time).
Local Notation run_loop :=
  (BaseWorkflow.run_loop process_input evaluate_output time).
Local Notation run_evaluation :=
  (BaseWorkflow.run_evaluation process_input evaluate_output time).
Local Notation evaluate_items :=
  (RunWorkflow.evaluate_items process_input evaluate_output time).

Lemma run_evaluation_single (item : value) (w : World) :
  run_evaluation [item] w
  = match evaluate_item item w with
    | (Ok r, w') => (Ok [r], w')
    | (Raise e, w') => (Raise e, w')
    end.
Proof.
  unfold BaseWorkflow.run_evaluation. cbn [BaseWorkflow.run_loop].
  unfold mbind. destruct (evaluate_item item w) as [[r | e] w']; reflexivity.
Qed.

(** X16.  The command-line runner, which calls [run_evaluation] on one item
    at a time and keeps the first result of each call, computes what a
    single [run_evaluation] on the whole dataset computes: the same results
    in the same order, or the same exception, and the same final world. *)
Theorem item_by_item_is_whole_run (dataset : list value) (w : World) :
  evaluate_items dataset [] w = run_evaluation dataset w.
Proof.
  unfold BaseWorkflow.run_evaluation at 1.
  generalize (@nil EvaluationResult) as results. revert w.
  induction dataset as [| item dataset IH]; intros w results; [reflexivity |].
  cbn [RunWorkflow.evaluate_items BaseWorkflow.run_loop].
  unfold mbind at 1 2. rewrite run_evaluation_single.
  destruct (evaluate_item item w) as [[r | e] w']; [apply IH | reflexivity].
Qed.

End RunnerLoop.

Section RunnerSummary.
Import RunWorkflow.

Lemma successful_le (results : list EvaluationResult) :
  (successful results <= length results)%nat.
Proof. unfold successful. apply length_filter. Qed.

Lemma successful_all (results : list EvaluationResult) :
  successful results = length results
  <-> Forall (fun r => success r = true) results.
Proof.
  unfold successful. induction results as [| r results IH].
  - simpl. split; [constructor | reflexivity].
  - rewrite Forall_cons. rewrite filter_cons.
    pose proof (length_filter (fun r => success r = true) results) as Hle.
    destruct (decide (success r = true)) as [Hr | Hr]; simpl.
    + rewrite <- IH. split; [intros [= H]; auto | intros [_ ->]; reflexivity].
    + split; [lia | tauto].
Qed.

(** X17.  The final summary of the runner divides by the number of results
    without a guard: on an empty run it raises a division by zero, where the
    JSON report gives rate 0 and average 0.  On a run with results both give
    the same rate and average; the rate lies in [[0,1]], and it is 1 exactly
    when every item succeeded. *)
Theorem summary_fails_on_empty_run :
  summary [] = Raise (OtherException "division by zero") /\
  ResultsPresenter.json_summary [] = (O, O, 0, 0) /\
  forall r results,
    exists rate average,
      summary (r :: results) = Ok (rate, average) /\
      ResultsPresenter.json_summary (r :: results)
      = (length (r :: results), successful (r :: results), rate, average) /\
      0 <= rate /\ rate <= 1 /\
      (rate = 1 <-> Forall (fun r => success r = true) (r :: results)).
Proof.
  split; [reflexivity |]. split; [reflexivity |].
  intros r results. eexists _, _. split; [reflexivity |].
  split; [reflexivity |].
  set (all := r :: results).
  assert (Hpos : (0 < length all)%nat) by (simpl; lia).
  pose proof (ratio_unit (successful all) (length all)
                (successful_le all) Hpos) as [Hlo Hhi].
  split; [exact Hlo |]. split; [exact Hhi |].
  rewrite <- successful_all. split.
  - intros Hone. apply Qc_of_nat_inj.
    rewrite <- (Qcdiv_mult_cancel (Qc_of_nat (successful all))
                  (Qc_of_nat (length all)))
      by (apply Qc_pos_nonzero, Qc_of_nat_pos, Hpos).
    rewrite Hone. ring.
  - intros ->. field. apply Qc_pos_nonzero, Qc_of_nat_pos, Hpos.
Qed.

(** X18.  The item limit of the runner keeps a prefix of the dataset.  No
    limit and the limit 0 both keep every item; a positive limit keeps that
    many items, or all of them when there are fewer; a negative limit drops
    that many items from the end. *)
Theorem limit_items_keeps_prefix {A} (max_items : option Z)
  (dataset_items : list A) :
  limit_items max_items dataset_items `prefix_of` dataset_items /\
  limit_items None dataset_items = dataset_items /\
  limit_items (Some 0%Z) dataset_items = dataset_items /\
  forall n : Z,
    ((0 < n)%Z ->
     length (limit_items (Some n) dataset_items)
     = Nat.min (Z.to_nat n) (length dataset_items)) /\
    ((n < 0)%Z ->
     length (limit_items (Some n) dataset_items)
     = (length dataset_items - Z.to_nat (- n))%nat).
Proof.
  split; [| split; [reflexivity | split; [reflexivity |]]].
  - unfold limit_items. destruct max_items as [n |]; [| reflexivity].
    destruct (Z.eqb n 0); [reflexivity |].
    destruct (Z.ltb 0 n); apply prefix_take.
  - intros n. unfold limit_items. split; intros Hn.
    + rewrite (proj2 (Z.eqb_neq n 0)) by lia.
      rewrite (proj2 (Z.ltb_lt 0 n)) by lia. apply length_take.
    + rewrite (proj2 (Z.eqb_neq n 0)) by lia.
      rewrite (proj2 (Z.ltb_ge 0 n)) by lia. rewrite length_take. lia.
Qed.

Lemma limit_items_keeps_prefix_witness :
  length (limit_items (Some 2%Z) [1%Z; 2%Z; 3%Z]) = Nat.min 2 3 /\
  length (limit_items (Some (-1)%Z) [1%Z; 2%Z; 3%Z]) = (3 - 1)%nat.
Proof.
  split.
  - apply (proj1 (proj2 (proj2 (proj2
             (limit_items_keeps_prefix None [1%Z; 2%Z; 3%Z]))) 2%Z)).
    reflexivity.
  - apply (proj2 (proj2 (proj2 (proj2
             (limit_items_keeps_prefix None [1%Z; 2%Z; 3%Z]))) (-1)%Z)).
    reflexivity.
Defined.

End RunnerSummary.

Section Tester.
Import AgentTester.

Lemma truthy_not_empty_dict (v : value) :
  truthy v = true -> py_eq v (VDict []) = false.
Proof.
  destruct v as [| b | z | q | s | l | [| entry d]];
    try reflexivity; discriminate.
Qed.

Lemma truthy_success_flag (v : value) :
  truthy v = true -> success_flag v = true.
Proof.
  intros Hv. unfold success_flag. rewrite Hv, (truthy_not_empty_dict v Hv).
  reflexivity.
Qed.

(** X19.  A prompt update that is accepted is what the tester shows next
    for the same workflow; an update that is refused changes nothing; and
    the prompts shown for the other workflows never change. *)
Theorem prompt_update_round_trip (workflows : workflows_t)
  (workflow_name new_prompt : string) :
  let answer := update_agent_prompt workflows workflow_name new_prompt in
  (fst answer = true ->
   get_agent_prompt (snd answer) workflow_name = VStr new_prompt) /\
  (fst answer = false -> snd answer = workflows) /\
  forall other, other <> workflow_name ->
    get_agent_prompt (snd answer) other = get_agent_prompt workflows other.
Proof.
  cbv zeta. unfold update_agent_prompt.
  destruct (lookup_key workflow_name workflows)
    as [[[| [agent_name agent] agents] |] |] eqn:Hlookup;
    try (simpl; repeat split; discriminate).
  destruct agent as [| b | z | q | s | l | d];
    try (simpl; repeat split; discriminate).
  cbn [setitem fst snd]. split; [| split; [discriminate |]].
  - intros _. unfold get_agent_prompt. rewrite lookup_dict_set_eq.
    rewrite get_dict, lookup_dict_set_eq. reflexivity.
  - intros other Hother. unfold get_agent_prompt.
    rewrite lookup_dict_set_ne by congruence. reflexivity.
Qed.

Lemma prompt_update_round_trip_witness :
  let workflows := [("primary", Some extract_agents); ("secondary", None)] in
  get_agent_prompt
    (snd (update_agent_prompt workflows "primary" "List the tasks."))
    "primary" = VStr "List the tasks." /\
  snd (update_agent_prompt workflows "secondary" "List the tasks.")
  = workflows /\
  get_agent_prompt
    (snd (update_agent_prompt workflows "primary" "List the tasks."))
    "secondary" = get_agent_prompt workflows "secondary".
Proof.
  cbv zeta. split; [| split].
  - apply (proj1 (prompt_update_round_trip
                    [("primary", Some extract_agents); ("secondary", None)]
                    "primary" "List the tasks.")).
    reflexivity.
  - apply (proj1 (proj2 (prompt_update_round_trip
                    [("primary", Some extract_agents); ("secondary", None)]
                    "secondary" "List the tasks."))).
    reflexivity.
  - apply (proj2 (proj2 (prompt_update_round_trip
                    [("primary", Some extract_agents); ("secondary", None)]
                    "primary" "List the tasks."))).
    discriminate.
Defined.

(** X20.  A prompt update of the tester never changes what a step sends to
    the model: the update writes the entry "prompt" of the first agent,
    the step reads the entry "prompt" inside the entry "config". *)
Theorem prompt_update_never_reaches_model (workflows : workflows_t)
  (workflow_name new_prompt : string) (agents : list (string * value)) :
  lookup_key workflow_name workflows = Some (Some agents) ->
  exists agents',
    lookup_key workflow_name
      (snd (update_agent_prompt workflows workflow_name new_prompt))
    = Some (Some agents') /\
    forall (World : Type) (chain_invoke : value -> string -> M World value)
           (agent_name : string) (state : BaseState) (w : World),
      GraphBuilder.agent_call agents' chain_invoke agent_name state w
      = GraphBuilder.agent_call agents chain_invoke agent_name state w.
Proof.
  intros Hlookup. unfold update_agent_prompt. rewrite Hlookup.
  destruct agents as [| [first agent] agents];
    [exists []; split; [exact Hlookup | reflexivity] |].
  destruct agent as [| b | z | q | s | l | d];
    try (eexists; split; [exact Hlookup | reflexivity]).
  cbn [setitem snd]. eexists. split; [apply lookup_dict_set_eq |].
  intros World chain_invoke agent_name state w.
  unfold GraphBuilder.agent_call. cbn [lookup_key].
  destruct (String.eqb agent_name first); [| reflexivity].
  cbn [getitem]. rewrite lookup_dict_set_ne by discriminate. reflexivity.
Qed.

Lemma prompt_update_never_reaches_model_witness :
  exists agents',
    lookup_key "primary"
      (snd (update_agent_prompt [("primary", Some extract_agents)]
              "primary" "List the tasks."))
    = Some (Some agents') /\
    forall (World : Type) (chain_invoke : value -> string -> M World value)
           (agent_name : string) (state : BaseState) (w : World),
      GraphBuilder.agent_call agents' chain_invoke agent_name state w
      = GraphBuilder.agent_call extract_agents chain_invoke agent_name state w.
Proof.
  apply (prompt_update_never_reaches_model
           [("primary", Some extract_agents)] "primary" "List the tasks."
           extract_agents).
  reflexivity.
Defined.

End Tester.

Section TesterSuccess.
Context {World : Type}.
Variable agents : list (string * value).
Variable chain_invoke : value -> string -> M World value.
Variable model_validate : value -> result value.
Variable StateGraph : Type.
Variable new_StateGraph : StateGraph.
Variable add_node : StateGraph -> string -> node -> result StateGraph.
Variable set_entry_point : StateGraph -> string -> result StateGraph.
Variable add_edge : StateGraph -> string -> string -> result StateGraph.
Variable END : string.
Variable compile : StateGraph -> result CompiledGraph.

(** X21.  Whenever [process_input] of the primary or of the secondary
    workflow returns, the tester reports a success: the output is the truthy
    output of the last step or the non-empty default structure, so the flag
    is true even when every step has failed. *)
Theorem tester_reports_success_on_any_output (input : string)
  (s s' : GraphBuilder.t * World) (output : value) :
  PrimaryWorkflow.process_input agents chain_invoke model_validate StateGraph
    new_StateGraph add_node set_entry_point add_edge END compile input s
  = (Ok output, s')
  \/ SecondaryWorkflow.process_input agents chain_invoke model_validate
       StateGraph new_StateGraph add_node set_entry_point add_edge END compile
       input s
     = (Ok output, s') ->
  truthy output = true /\ AgentTester.success_flag output = true.
Proof.
  intros Hrun.
  assert (Htruthy : truthy output = true).
  { destruct s as [graph_builder w].
    destruct Hrun as [Hrun | Hrun];
      unfold PrimaryWorkflow.process_input, SecondaryWorkflow.process_input
        in Hrun;
      destruct (GraphBuilder.execute _ _ _ _ _ _ _ _ _ _ _ _ _)
        as [[[state | e] graph_builder'] w'];
      try discriminate Hrun;
      injection Hrun as <- _;
      destruct (truthy (output_data state)) eqn:Hout;
      first [exact Hout | reflexivity]. }
  split; [exact Htruthy | apply truthy_success_flag, Htruthy].
Qed.

End TesterSuccess.

Section TesterSuccessInstance.

Lemma tester_reports_success_on_any_output_witness :
  truthy (PrimaryWorkflow.empty_output) = true /\
  AgentTester.success_flag (PrimaryWorkflow.empty_output) = true.
Proof.
  apply (tester_reports_success_on_any_output extract_agents failing_backend
           accept_all (list node) [] listing_add_node listing_set_entry_point
           listing_add_edge langgraph_END Ok "pump 3 is leaking"
           (compiled_builder, ()) (compiled_builder, ())
           PrimaryWorkflow.empty_output).
  left. reflexivity.
Defined.

End TesterSuccessInstance.

(* ===================================================================== *)
(** * The keyword tables *)
(* ===================================================================== *)

Section KeywordTables.

Ltac split_first_match H :=
  repeat match type of H with
         | context [substring_in ?phrase ?text] =>
             let E := fresh "Hphrase" in
             destruct (substring_in phrase text) eqn:E;
             cbn [orb] in H; try discriminate H
         end.

(** X22.  The table of the asset mapper extends the table of the asset
    metric: a text in which the mapper finds no asset mentions no asset for
    the metric either, so the metric gives it the full score whatever the
    output is. *)
Theorem unmapped_text_scores_one (text : string) (actual expected : value) :
  AssetMapper.extract_asset_id text = None ->
  AssetIdentificationMetric.expected_assets_of text = ∅ /\
  AssetIdentificationMetric.evaluate text actual expected = Ok 1.
Proof.
  intros Hnone.
  assert (Hempty : AssetIdentificationMetric.expected_assets_of text = ∅).
  { unfold AssetMapper.extract_asset_id, AssetMapper.ASSET_MAPPINGS in Hnone.
    cbn [first_match existsb] in Hnone.
    split_first_match Hnone.
    unfold AssetIdentificationMetric.expected_assets_of,
      AssetIdentificationMetric.ASSET_MAPPINGS.
    cbn [fold_left existsb].
    repeat match goal with
           | E : substring_in _ _ = false |- _ => rewrite E; clear E
           end.
    reflexivity. }
  split; [exact Hempty |].
  unfold AssetIdentificationMetric.evaluate. rewrite Hempty.
  reflexivity.
Qed.

Lemma unmapped_text_scores_one_witness :
  AssetIdentificationMetric.expected_assets_of "the boiler is cold" = ∅ /\
  AssetIdentificationMetric.evaluate "the boiler is cold" tagged_task VNone
  = Ok 1.
Proof.
  apply (unmapped_text_scores_one "the boiler is cold" tagged_task VNone).
  reflexivity.
Defined.

End KeywordTables.

Section Substrings.

Lemma append_nil (q : string) : "" ++ q = q.
Proof. reflexivity. Qed.

Lemma append_cons (c : ascii) (a q : string) :
  String c a ++ q = String c (a ++ q).
Proof. reflexivity. Qed.

Lemma prefix_spec (a s : string) :
  String.prefix a s = true <-> exists q, s = a ++ q.
Proof.
  revert s. induction a as [| c a IH]; intros s.
  - split; [intros _; exists s; reflexivity | intros _; destruct s; reflexivity].
  - destruct s as [| d s].
    + split; [discriminate | intros [q Hq]; discriminate Hq].
    + cbn [String.prefix]. destruct (ascii_dec c d) as [<- | Hcd].
      * rewrite IH. split; intros [q Hq]; exists q;
          rewrite append_cons in *; congruence.
      * split; [discriminate |].
        intros [q Hq]. rewrite append_cons in Hq. congruence.
Qed.

Lemma substring_in_spec (sub s : string) :
  substring_in sub s = true <-> exists p q, s = p ++ sub ++ q.
Proof.
  induction s as [| c s IH]; cbn [substring_in].
  - rewrite orb_false_r, prefix_spec. split.
    + intros [q Hq]. exists "", q. exact Hq.
    + intros (p & q & Hpq). destruct p; [exists q; exact Hpq |].
      discriminate Hpq.
  - rewrite orb_true_iff, prefix_spec, IH. split.
    + intros [[q Hq] | (p & q & Hpq)].
      * exists "", q. exact Hq.
      * exists (String c p), q. rewrite append_cons. congruence.
    + intros (p & q & Hpq). destruct p as [| c' p].
      * left. exists q. exact Hpq.
      * right. exists p, q. rewrite append_cons in Hpq. congruence.
Qed.

Lemma string_app_assoc (a b c : string) : (a ++ b) ++ c = a ++ (b ++ c).
Proof.
  induction a as [| x a IH]; [reflexivity |].
  rewrite !append_cons, IH. reflexivity.
Qed.

Lemma substring_in_trans (a b t : string) :
  substring_in a b = true -> substring_in b t = true ->
  substring_in a t = true.
Proof.
  rewrite !substring_in_spec.
  intros (p & q & ->) (p' & q' & ->).
  exists (p' ++ p), (q ++ q').
  rewrite !string_app_assoc. reflexivity.
Qed.

Lemma longer_phrase_absent (a b t : string) :
  substring_in a b = true -> substring_in a t = false ->
  substring_in b t = false.
Proof.
  intros Hab Hat. destruct (substring_in b t) eqn:Hbt; [| reflexivity].
  rewrite (substring_in_trans a b t Hab Hbt) in Hat. discriminate Hat.
Qed.

End Substrings.

Section WorkTypes.
Import WorkTypeClassifier.

Lemma low_priority_work_type (text : string) :
  substring_in "low priority" (lower text) = true
  \/ substring_in "non-urgent" (lower text) = true ->
  classify_work_type text = Some "emergency-001"
  \/ classify_work_type text = Some "urgent-002".
Proof.
  intros Hphrase.
  assert (Hurgent : substring_in "priority" (lower text) = true
                    \/ substring_in "urgent" (lower text) = true).
  { destruct Hphrase as [H | H]; [left | right];
      refine (substring_in_trans _ _ _ _ H); reflexivity. }
  unfold classify_work_type, WORK_TYPE_MAPPINGS.
  cbn [first_match].
  destruct (existsb _ _); [left; reflexivity |].
  right.
  assert (Hany : existsb (fun phrase => substring_in phrase (lower text))
                   ["urgent"; "asap"; "as soon as possible"; "high priority";
                    "priority"; "soon"; "quickly"] = true).
  { apply existsb_exists. destruct Hurgent as [H | H].
    - exists "priority". split; [| exact H]. simpl. tauto.
    - exists "urgent". split; [| exact H]. simpl. tauto. }
  rewrite Hany. reflexivity.
Qed.

(** X23.  A text that says "low priority" or "non-urgent" is never
    classified as low priority work: both phrases contain a phrase of the
    urgent class, which is looked up before, so the work type is the
    emergency or the urgent one. *)
Theorem low_priority_phrases_classified_urgent (text : string) :
  substring_in "low priority" (lower text) = true
  \/ substring_in "non-urgent" (lower text) = true ->
  classify_work_type text = Some "emergency-001"
  \/ classify_work_type text = Some "urgent-002".
Proof. exact (low_priority_work_type text). Qed.

Lemma low_priority_phrases_classified_urgent_witness :
  classify_work_type "Low priority: repaint the guard rail"
    = Some "emergency-001"
  \/ classify_work_type "Low priority: repaint the guard rail"
    = Some "urgent-002".
Proof.
  apply (low_priority_phrases_classified_urgent
           "Low priority: repaint the guard rail").
  left. reflexivity.
Defined.

End WorkTypes.

Section Categories.
Import CategoryClassifier.

(** X24.  A text that says "low priority" or "non-urgent" is filed as a
    work request only if it says "work request": otherwise an explicit
    phrase files it elsewhere, or the work type found for it, emergency or
    urgent, makes it a work order. *)
Theorem low_priority_text_not_defaulted (text : string) :
  substring_in "low priority" (lower text) = true
  \/ substring_in "non-urgent" (lower text) = true ->
  substring_in "work request" (lower text) = false ->
  classify_category text <> "work_request".
Proof.
  intros Hphrase Hrequest. unfold classify_category. cbv zeta.
  assert (Hexplicit :
    any_in ["work request"; "create a work request"; "put in a work request"]
      (lower text) = false).
  { unfold any_in. cbn [existsb]. rewrite Hrequest.
    rewrite !(longer_phrase_absent "work request" _ (lower text))
      by (reflexivity || exact Hrequest).
    reflexivity. }
  rewrite Hexplicit. clear Hexplicit.
  repeat (destruct (any_in _ _); [discriminate |]).
  destruct (low_priority_work_type text Hphrase) as [Htype | Htype];
    rewrite Htype; discriminate.
Qed.

Lemma low_priority_text_not_defaulted_witness :
  classify_category "Low priority: repaint the guard rail" <> "work_request".
Proof.
  apply (low_priority_text_not_defaulted
           "Low priority: repaint the guard rail").
  - left. reflexivity.
  - reflexivity.
Defined.

End Categories.
